(** * llamaindex-agents: the four tutorial notebooks

    The repository holds four Jupyter notebooks.  Each one loads a
    credential, builds one tool and one agent through third-party
    libraries, and sends a few utterances to the agent.  The only
    function defined locally is [multiply] of the function-agent
    notebook.

    This development embeds
    - Python's [*] on [int] and [float] values and the local function
      [multiply] (module [PyNum]);
    - the top-level code of the four notebooks as programs over the
      calls they make, run against an arbitrary external library
      (module [Notebooks]). *)

From Stdlib Require Import ZArith QArith Qpower Lia Bool List.
From Stdlib Require Import Floats.SpecFloat.
From stdpp Require Import gmap strings list.

Open Scope Z_scope.

(** ** Python numbers and the calculator tool *)

Module PyNum.

(** CPython's [float] is IEEE-754 binary64: 53 bits of precision,
    infinities at exponent 1024. *)
Definition prec : Z := 53.
Definition emax : Z := 1024.

(** The numeric values [multiply] can receive: the annotation says
    [float], Python does not enforce it, and a JSON number without a
    fraction arrives as an [int]. *)
Inductive pynum : Type :=
| PyInt (n : Z)
| PyFloat (x : spec_float).

Inductive pyexn : Type :=
| OverflowError.

(** [int] to [float] as CPython's [PyLong_AsDouble] does it: round to
    nearest, ties to even; an integer too large for a double raises
    [OverflowError] instead of becoming an infinity. *)
Definition float_of_int (n : Z) : pyexn + spec_float :=
  match binary_normalize prec emax n 0 false with
  | S754_infinity _ => inl OverflowError
  | x => inr x
  end.

(** The IEEE product. A NaN is one value here: which NaN comes back (its
    sign, its payload, quiet or signalling) is not modelled, so a result
    [S754_nan] says "some NaN" and nothing more. *)
Definition float_mul (x y : spec_float) : spec_float := SFmul prec emax x y.

(** Python's binary [*] on numbers: exact on two [int]s, the IEEE
    product on two [float]s, and an [int] operand is converted first when
    the other one is a [float]. *)
Definition py_mul (a b : pynum) : pyexn + pynum :=
  match a, b with
  | PyInt m, PyInt n => inr (PyInt (m * n))
  | PyFloat x, PyFloat y => inr (PyFloat (float_mul x y))
  | PyInt m, PyFloat y =>
      match float_of_int m with
      | inl e => inl e
      | inr x => inr (PyFloat (float_mul x y))
      end
  | PyFloat x, PyInt n =>
      match float_of_int n with
      | inl e => inl e
      | inr y => inr (PyFloat (float_mul x y))
      end
  end.

(** [def multiply(a: float, b: float) -> float: return a * b] *)
Definition multiply (a b : pynum) : pyexn + pynum := py_mul a b.

(** The real number a value stands for, as a rational; infinities and
    NaN stand for none. *)
Definition signed (s : bool) (m : positive) : Z := if s then Z.neg m else Z.pos m.

Definition SF2Q (x : spec_float) : option Q :=
  match x with
  | S754_zero _ => Some 0%Q
  | S754_finite s m e => Some (inject_Z (signed s m) * (2 # 1) ^ e)%Q
  | S754_infinity _ | S754_nan => None
  end.

Definition value (a : pynum) : option Q :=
  match a with
  | PyInt n => Some (inject_Z n)
  | PyFloat x => SF2Q x
  end.

(** A binary64 value: a float in canonical form, zero, infinity or NaN. *)
Definition is_binary64 (x : spec_float) : Prop := valid_binary prec emax x = true.

(** A shift record with nothing shifted out yet. *)
Definition exact_rec (m : Z) : shr_record :=
  {| shr_m := m; shr_r := false; shr_s := false |}.

(** [multiply a b] returns a number standing for exactly [q]. *)
Definition returns_exactly (r : pyexn + pynum) (q : Q) : Prop :=
  exists c q', r = inr c /\ value c = Some q' /\ (q' == q)%Q.

(** [multiply a b] returns exactly the product of what [a] and [b] stand
    for. *)
Definition exact_product (a b : pynum) : Prop :=
  forall qa qb, value a = Some qa -> value b = Some qb ->
  returns_exactly (multiply a b) (qa * qb).

(** Some binary64 value stands for exactly [q]. *)
Definition representable (q : Q) : Prop :=
  exists z qz, is_binary64 z /\ SF2Q z = Some qz /\ (qz == q)%Q.

(** The values Python can hold: any integer, any binary64 float. *)
Definition well_formed (a : pynum) : Prop :=
  match a with
  | PyInt _ => True
  | PyFloat x => is_binary64 x
  end.

(** The result type of [a * b] can hold [q]: always for two [int]s, for
    two [float]s when [q] is representable. *)
Definition product_fits (a b : pynum) (q : Q) : Prop :=
  match a, b with
  | PyInt _, PyInt _ => True
  | PyFloat _, PyFloat _ => representable q
  | _, _ => False
  end.

(** The double nearest to one tenth, what Python reads [0.1] as. *)
Definition tenth : spec_float := S754_finite false 7205759403792794 (-56).

(** The double 1.0. *)
Definition one : spec_float := S754_finite false 4503599627370496 (-52).

(** The integers every one of which has a double of its own. *)
Definition fits_double_exactly (n : Z) : Prop := Z.abs n < 2 ^ 53.

(** Python's [==] on numbers: [int]s by value, [float]s as IEEE says (the
    two zeros are equal, a NaN is equal to nothing, not even to itself),
    an [int] and a [float] by the exact values they stand for. *)
Definition py_eq (a b : pynum) : bool :=
  match a, b with
  | PyInt m, PyInt n => m =? n
  | PyFloat x, PyFloat y => SFeqb x y
  | PyInt m, PyFloat y | PyFloat y, PyInt m =>
      match SF2Q y with
      | Some q => Qeq_bool q (inject_Z m)
      | None => false
      end
  end.

(** Two calls come out equal: both return and [==] holds of what they
    return, or both raise the same exception. *)
Definition equal_results (r1 r2 : pyexn + pynum) : Prop :=
  match r1, r2 with
  | inr c1, inr c2 => py_eq c1 c2 = true
  | inl e1, inl e2 => e1 = e2
  | _, _ => False
  end.

(** [multiply(a, b)] equals [multiply(b, a)]. *)
Definition commutes (a b : pynum) : Prop :=
  equal_results (multiply a b) (multiply b a).

Definition is_a_nan (a : pynum) : Prop := a = PyFloat S754_nan.

Definition returns_a_nan (r : pyexn + pynum) : Prop := r = inr (PyFloat S754_nan).

Definition infinity : spec_float := S754_infinity false.
Definition zero : spec_float := S754_zero false.

End PyNum.

(** ** The notebooks *)

Module Notebooks.
Import PyNum.

(** A local Python function handed to an agent as a tool: its name, its
    docstring and what calling it does. *)
Record pyfunction : Type := {
  fn_name : string;
  fn_doc : string;
  fn_call : pynum -> pynum -> pyexn + pynum
}.

Definition multiply_tool : pyfunction :=
  {| fn_name := "multiply";
     fn_doc := "Useful for multiplying two numbers.";
     fn_call := multiply |}.

Definition OPENAI_API_KEY : string := "OPENAI_API_KEY".

(** The three pre-built tool specifications the notebooks instantiate. *)
Inductive toolkind : Type :=
| CodeInterpreter
| DuckDuckGoSearch
| Arxiv.

(** An agent is a Python object: the notebook holds a reference to it
    and the object's state lives in the store. *)
Definition agent : Type := nat.

(** What python-dotenv reads from [.env]: the bindings in file order,
    the empty list when there is no file. A binding gives a name its
    value as written: lines that name a variable without a value and
    values that refer to other variables are left out of the model. *)
Definition dotenv_values (file : list (string * string)) : gmap string string :=
  foldl (fun d kv => <[kv.1 := kv.2]> d) ∅ file.

(** Model of python-dotenv (an external package): a binding of the file
    is written to [os.environ] unless the name is already there and
    [override] is off. *)
Definition set_as_environment_variables (override : bool)
    (d env : gmap string string) : gmap string string :=
  if override then d ∪ env else env ∪ d.

Definition repr_bool (b : bool) : string := if b then "True" else "False".

Section Program.
(** The types of the third-party libraries are left open. [ext] is
    everything outside the process: the hosted model, the network, the
    sandbox. *)
Context {exn toolspec tool llm agent_state response ext : Type}.

(** The calls the notebooks' own code makes. *)
Inductive call : Type -> Type :=
| CLoadDotenv (override : bool) : call bool
| CGetenv (name : string) : call (option string)
| CSetApiKey (v : option string) : call unit
| COpenAI (model : string) (api_key : option string) : call llm
| CToolSpec (k : toolkind) : call toolspec
| CToToolList (s : toolspec) : call (list tool)
| CFromTools (tools : list tool) (l : option llm) (verbose : bool) : call agent
| CFunctionAgent (tools : list pyfunction) (l : llm) (system_prompt : string) : call agent
| CChat (a : agent) (msg : string) : call response
| CRun (a : agent) (msg : string) : call response
| CPrint (s : string) : call unit
| CDisplay (s : string) : call unit.

(** Code over these calls: a value, a call with what follows it, and
    [try: body / except Exception as e: handler] with what follows it.
    The source has no loop and no branch, and neither has this type. *)
Inductive prog (A : Type) : Type :=
| Ret (a : A)
| Vis {X : Type} (c : call X) (k : X -> prog A)
| TryExcept {B : Type} (body : prog B) (handler : exn -> prog B) (k : B -> prog A).
Arguments Ret {A} a.
Arguments Vis {A X} c k.
Arguments TryExcept {A B} body handler k.

Fixpoint bind {A B : Type} (p : prog A) (f : A -> prog B) : prog B :=
  match p with
  | Ret a => f a
  | Vis c k => Vis c (fun x => bind (k x) f)
  | TryExcept body handler k => TryExcept body handler (fun x => bind (k x) f)
  end.

(** Code with no [try] in it. *)
Inductive handler_free {A : Type} : prog A -> Prop :=
| hf_ret (a : A) : handler_free (Ret a)
| hf_vis {X : Type} (c : call X) (k : X -> prog A) :
    (forall x, handler_free (k x)) -> handler_free (Vis c k).

#[global] Instance prog_ret : MRet prog := fun A a => Ret a.
#[global] Instance prog_bind : MBind prog := fun A B f p => bind p f.

Definition perform {X : Type} (c : call X) : prog X := Vis c Ret.

(** The calls under their Python names. A keyword argument left out
    takes its default: [api_key=None], [llm=None], [verbose=False]. *)
Definition load_dotenv (override : bool) := perform (CLoadDotenv override).
Definition os_getenv (name : string) := perform (CGetenv name).
Definition set_openai_api_key (v : option string) := perform (CSetApiKey v).
Definition OpenAI (model : string) (api_key : option string) :=
  perform (COpenAI model api_key).
Definition CodeInterpreterToolSpec := perform (CToolSpec CodeInterpreter).
Definition DuckDuckGoSearchToolSpec := perform (CToolSpec DuckDuckGoSearch).
Definition ArxivToolSpec := perform (CToolSpec Arxiv).
Definition to_tool_list (s : toolspec) := perform (CToToolList s).
Definition OpenAIAgent_from_tools (tools : list tool) (l : option llm)
    (verbose : bool) := perform (CFromTools tools l verbose).
Definition FunctionAgent (tools : list pyfunction) (l : llm)
    (system_prompt : string) := perform (CFunctionAgent tools l system_prompt).
Definition agent_chat (a : agent) (msg : string) := perform (CChat a msg).
Definition agent_run (a : agent) (msg : string) := perform (CRun a msg).
Definition print (s : string) := perform (CPrint s).
(** What the notebook does with the value of a cell's last expression:
    it shows its [repr] as the cell's result. *)
Definition display (s : string) := perform (CDisplay s).

(** [str] and [repr] of a response object. [print(x)] writes [str(x)],
    whether or not the code applies [str] first. *)
Context (str repr : response -> string).

(** *** The function-agent notebook *)
Definition function_agent_notebook : prog unit :=
  _ ← load_dotenv true;
  api_key ← os_getenv OPENAI_API_KEY;
  l ← OpenAI "gpt-4o-mini" api_key;
  a ← FunctionAgent [multiply_tool] l
        "You are a helpful assistant that can multiply two numbers.";
  response ← agent_run a "What is 1234 * 4567?";
  print (str response).

(** *** The code-interpreter notebook *)
Definition code_interpreter_notebook : prog unit :=
  _ ← load_dotenv true;
  key ← os_getenv OPENAI_API_KEY;
  _ ← set_openai_api_key key;
  code_spec ← CodeInterpreterToolSpec;
  tools ← to_tool_list code_spec;
  a ← OpenAIAgent_from_tools tools None true;
  r ← agent_chat a
        "Can you help me write some python code to pass to the code_interpreter tool";
  _ ← print (str r);
  r ← agent_chat a
        "There is a world_happiness_2016.csv file in the `data` directory (relative path).
                 Can you write and execute code to tell me columns does it have?";
  _ ← print (str r);
  r ← agent_chat a "What are the top 10 happiest countries";
  _ ← print (str r);
  r ← agent_chat a "Can you make a graph of the top 10 happiest countries";
  _ ← print (str r);
  r ← agent_chat a
        "I cant see the plot - can you save it locally with file name `output.png`?";
  _ ← print (str r);
  r ← agent_chat a "can you also plot the 10 lowest";
  _ ← print (str r);
  r ← agent_chat a "can you do it in one plot";
  display (repr r).

(** *** The DuckDuckGo notebook *)
Definition duckduckgo_notebook : prog unit :=
  found ← load_dotenv false;
  _ ← display (repr_bool found);
  tool_spec ← DuckDuckGoSearchToolSpec;
  tools ← to_tool_list tool_spec;
  a ← OpenAIAgent_from_tools tools None false;
  response1 ← agent_chat a "Quantum Computing and AI";
  _ ← print (str response1);
  response2 ← agent_chat a "what are the latest developments in machine learning";
  print (str response2).

(** *** The arXiv notebook *)
Definition arxiv_notebook : prog unit :=
  _ ← load_dotenv true;
  key ← os_getenv OPENAI_API_KEY;
  _ ← set_openai_api_key key;
  l ← OpenAI "gpt-4o-mini" None;
  arxiv_tool ← ArxivToolSpec;
  tools ← to_tool_list arxiv_tool;
  a ← OpenAIAgent_from_tools tools (Some l) true;
  r ← agent_chat a "Whats going on with the superconductor lk-99";
  print (str r).

Inductive notebook : Type :=
| FunctionAgentNb
| CodeInterpreterNb
| DuckDuckGoNb
| ArxivNb.

Definition program (nb : notebook) : prog unit :=
  match nb with
  | FunctionAgentNb => function_agent_notebook
  | CodeInterpreterNb => code_interpreter_notebook
  | DuckDuckGoNb => duckduckgo_notebook
  | ArxivNb => arxiv_notebook
  end.

(** *** The process and the outside world *)

(** What the libraries can read of the process configuration:
    [os.environ] and the module attribute [openai.api_key]. *)
Definition config : Type := gmap string string * option string.

(** The third-party libraries, as far as the notebooks use them. Every
    call may change the outside world and may raise. An agent's state
    is changed by a turn even when the turn raises. *)
Record Library : Type := {
  lib_OpenAI : ext -> config -> string -> option string -> ext * (exn + llm);
  lib_ToolSpec : ext -> toolkind -> ext * (exn + toolspec);
  lib_to_tool_list : ext -> toolspec -> ext * (exn + list tool);
  lib_from_tools :
    ext -> config -> list tool -> option llm -> bool -> ext * (exn + agent_state);
  lib_FunctionAgent :
    ext -> config -> list pyfunction -> llm -> string -> ext * (exn + agent_state);
  lib_chat :
    ext -> config -> agent_state -> string -> ext * agent_state * (exn + response);
  lib_run :
    ext -> config -> agent_state -> string -> ext * agent_state * (exn + response)
}.

Record world : Type := World {
  environ : gmap string string;          (* os.environ *)
  dotenv_file : list (string * string);  (* the bindings of .env *)
  openai_api_key : option string;        (* openai.api_key *)
  agents : list agent_state;             (* the agent objects, by reference *)
  stdout : list string;                  (* what the notebook's code printed *)
  displayed : list string;               (* cell results shown by the notebook *)
  external : ext
}.

Definition config_of (w : world) : config := (environ w, openai_api_key w).

Definition set_environ (e : gmap string string) (w : world) : world :=
  World e (dotenv_file w) (openai_api_key w) (agents w) (stdout w) (displayed w)
        (external w).
Definition set_api_key (k : option string) (w : world) : world :=
  World (environ w) (dotenv_file w) k (agents w) (stdout w) (displayed w)
        (external w).
Definition set_agents (l : list agent_state) (w : world) : world :=
  World (environ w) (dotenv_file w) (openai_api_key w) l (stdout w) (displayed w)
        (external w).
Definition set_stdout (l : list string) (w : world) : world :=
  World (environ w) (dotenv_file w) (openai_api_key w) (agents w) l (displayed w)
        (external w).
Definition set_displayed (l : list string) (w : world) : world :=
  World (environ w) (dotenv_file w) (openai_api_key w) (agents w) (stdout w) l
        (external w).
Definition set_external (x : ext) (w : world) : world :=
  World (environ w) (dotenv_file w) (openai_api_key w) (agents w) (stdout w)
        (displayed w) x.

(** One entry of the trace per call made: the call, its arguments and
    what came back. A turn also records the state of the agent object
    before and after it; a construction records the new object's state. *)
Inductive event : Type :=
| EvLoadDotenv (override : bool) (found : bool)
| EvGetenv (name : string) (v : option string)
| EvSetApiKey (v : option string)
| EvOpenAI (model : string) (api_key : option string) (r : exn + llm)
| EvToolSpec (k : toolkind) (r : exn + toolspec)
| EvToToolList (s : toolspec) (r : exn + list tool)
| EvFromTools (tools : list tool) (l : option llm) (verbose : bool)
    (r : exn + agent * agent_state)
| EvFunctionAgent (tools : list pyfunction) (l : llm) (system_prompt : string)
    (r : exn + agent * agent_state)
| EvChat (a : agent) (msg : string) (before after : agent_state) (r : exn + response)
| EvRun (a : agent) (msg : string) (before after : agent_state) (r : exn + response)
| EvPrint (s : string)
| EvDisplay (s : string).

Variable lib : Library.

(** A new agent object is put in the store and its reference returned. *)
Definition allocate (x : ext) (r : exn + agent_state) (w : world)
    : world * (exn + agent * agent_state) :=
  match r with
  | inl e => (set_external x w, inl e)
  | inr st => (set_agents (agents w ++ [st]) (set_external x w),
               inr (length (agents w), st))
  end.

Definition returned_agent (r : exn + agent * agent_state) : exn + agent :=
  match r with
  | inl e => inl e
  | inr (a, _) => inr a
  end.

(** What one call does. [None] stands for a reference to an object the
    store does not hold, which Python cannot produce. The calls into
    llama-index and the OpenAI client may raise; [load_dotenv],
    [os.getenv], the assignment to [openai.api_key], [print] and the
    display of a cell result are taken to return. *)
Definition handle {X : Type} (c : call X) (w : world)
    : option (world * event * (exn + X)) :=
  match c in call X return option (world * event * (exn + X)) with
  | CLoadDotenv override =>
      let d := dotenv_values (dotenv_file w) in
      let found := negb (bool_decide (d = ∅)) in
      Some (set_environ (set_as_environment_variables override d (environ w)) w,
            EvLoadDotenv override found, inr found)
  | CGetenv name =>
      Some (w, EvGetenv name (environ w !! name), inr (environ w !! name))
  | CSetApiKey v => Some (set_api_key v w, EvSetApiKey v, inr tt)
  | COpenAI model api_key =>
      let '(x, r) := lib_OpenAI lib (external w) (config_of w) model api_key in
      Some (set_external x w, EvOpenAI model api_key r, r)
  | CToolSpec k =>
      let '(x, r) := lib_ToolSpec lib (external w) k in
      Some (set_external x w, EvToolSpec k r, r)
  | CToToolList s =>
      let '(x, r) := lib_to_tool_list lib (external w) s in
      Some (set_external x w, EvToToolList s r, r)
  | CFromTools tools l verbose =>
      let '(x, r) := lib_from_tools lib (external w) (config_of w) tools l verbose in
      let '(w', r') := allocate x r w in
      Some (w', EvFromTools tools l verbose r', returned_agent r')
  | CFunctionAgent tools l system_prompt =>
      let '(x, r) :=
        lib_FunctionAgent lib (external w) (config_of w) tools l system_prompt in
      let '(w', r') := allocate x r w in
      Some (w', EvFunctionAgent tools l system_prompt r', returned_agent r')
  | CChat a msg =>
      match agents w !! a with
      | None => None
      | Some st =>
          let '(x, st', r) := lib_chat lib (external w) (config_of w) st msg in
          Some (set_agents (<[a := st']> (agents w)) (set_external x w),
                EvChat a msg st st' r, r)
      end
  | CRun a msg =>
      match agents w !! a with
      | None => None
      | Some st =>
          let '(x, st', r) := lib_run lib (external w) (config_of w) st msg in
          Some (set_agents (<[a := st']> (agents w)) (set_external x w),
                EvRun a msg st st' r, r)
      end
  | CPrint s => Some (set_stdout (stdout w ++ [s]) w, EvPrint s, inr tt)
  | CDisplay s => Some (set_displayed (displayed w ++ [s]) w, EvDisplay s, inr tt)
  end.

(** How a run of the notebook ends. *)
Inductive outcome (A : Type) : Type :=
| Done (a : A)
| Raised (e : exn)
| Dangling.
Arguments Done {A} a.
Arguments Raised {A} e.
Arguments Dangling {A}.

(** Running the cells top to bottom. An exception raised by a call ends
    the code around it up to the nearest enclosing [try], whose handler
    then runs; with no [try] around, it ends the run and is its outcome. *)
Fixpoint run {A : Type} (p : prog A) (w : world) : world * list event * outcome A :=
  match p with
  | Ret a => (w, [], Done a)
  | Vis c k =>
      match handle c w with
      | None => (w, [], Dangling)
      | Some (w', ev, inl e) => (w', [ev], Raised e)
      | Some (w', ev, inr x) =>
          let '(w'', t, o) := run (k x) w' in (w'', ev :: t, o)
      end
  | TryExcept body handler k =>
      let '(w1, t1, o1) := run body w in
      match o1 with
      | Done b => let '(w2, t2, o2) := run (k b) w1 in (w2, t1 ++ t2, o2)
      | Raised e =>
          let '(w2, t2, o2) := run (handler e) w1 in
          match o2 with
          | Done b => let '(w3, t3, o3) := run (k b) w2 in (w3, t1 ++ t2 ++ t3, o3)
          | Raised e' => (w2, t1 ++ t2, Raised e')
          | Dangling => (w2, t1 ++ t2, Dangling)
          end
      | Dangling => (w1, t1, Dangling)
      end
  end.

Definition trace_of (nb : notebook) (w : world) : list event := (run (program nb) w).1.2.
Definition outcome_of (nb : notebook) (w : world) : outcome unit := (run (program nb) w).2.
Definition final (nb : notebook) (w : world) : world := (run (program nb) w).1.1.


(** *** Reading a trace *)

(** The exception a call raised, if it raised. *)
Definition raised (ev : event) : option exn :=
  match ev with
  | EvOpenAI _ _ (inl e) | EvToolSpec _ (inl e) | EvToToolList _ (inl e)
  | EvFromTools _ _ _ (inl e) | EvFunctionAgent _ _ _ (inl e)
  | EvChat _ _ _ _ (inl e) | EvRun _ _ _ _ (inl e) => Some e
  | _ => None
  end.

(** The steps of a notebook. *)
Definition is_credential (ev : event) : Prop :=
  match ev with
  | EvLoadDotenv _ _ | EvGetenv _ _ | EvSetApiKey _ | EvDisplay _ => True
  | _ => False
  end.

Definition is_setup (ev : event) : Prop :=
  match ev with
  | EvOpenAI _ _ _ | EvToolSpec _ _ | EvToToolList _ _ => True
  | _ => False
  end.

Definition is_construction (ev : event) : Prop :=
  match ev with
  | EvFromTools _ _ _ _ | EvFunctionAgent _ _ _ _ => True
  | _ => False
  end.

(** The steps of [setup] that make tools and the ones that make a model
    client, with what they returned. *)
Fixpoint tool_steps (t : list event) : list event :=
  match t with
  | [] => []
  | EvToolSpec k r :: rest => EvToolSpec k r :: tool_steps rest
  | EvToToolList s r :: rest => EvToToolList s r :: tool_steps rest
  | _ :: rest => tool_steps rest
  end.

Fixpoint clients_built (t : list event) : list (exn + llm) :=
  match t with
  | [] => []
  | EvOpenAI _ _ r :: rest => r :: clients_built rest
  | _ :: rest => clients_built rest
  end.

(** The agent construction [c] is given what [setup] made. The tools:
    one tool specification was instantiated and the list of tools it
    yielded, however many, is what the agent is built from; or, with no
    specification, the one local function. The model: the one client
    built, or none built and none given, which means the library's
    default. *)
Definition bound_to_tools (setup : list event) (c : event) : Prop :=
  match c with
  | EvFromTools tools _ _ _ =>
      exists k spec,
        tool_steps setup = [EvToolSpec k (inr spec); EvToToolList spec (inr tools)]
  | EvFunctionAgent tools _ _ _ => tool_steps setup = [] /\ tools = [multiply_tool]
  | _ => False
  end.

Definition bound_to_model (setup : list event) (c : event) : Prop :=
  match c with
  | EvFromTools _ (Some l) _ _ | EvFunctionAgent _ l _ _ => clients_built setup = [inr l]
  | EvFromTools _ None _ _ => clients_built setup = []
  | _ => False
  end.

(** How many tools an agent construction was handed. *)
Definition tools_given (ev : event) : nat :=
  match ev with
  | EvFromTools tools _ _ _ => length tools
  | EvFunctionAgent tools _ _ _ => length tools
  | _ => 0
  end.

(** The turns: a call into the agent that returned, then what the code
    does with the response, and so on. *)
Definition is_answered_turn (ev : event) : Prop :=
  match ev with
  | EvChat _ _ _ _ (inr _) | EvRun _ _ _ _ (inr _) => True
  | _ => False
  end.

Definition is_output (ev : event) : Prop :=
  match ev with
  | EvPrint _ | EvDisplay _ => True
  | _ => False
  end.

Fixpoint chat_turns (turns : list event) : Prop :=
  match turns with
  | [] => True
  | [_] => False
  | turn :: shown :: rest => is_answered_turn turn /\ is_output shown /\ chat_turns rest
  end.

(** Credentials first, then the tools (and possibly a model), then the
    agent bound to them, then at least one turn. *)
Definition performs_in_order (t : list event) : Prop :=
  exists creds setup c turns,
    t = creds ++ setup ++ c :: turns /\
    (exists override found rest, creds = EvLoadDotenv override found :: rest) /\
    Forall is_credential creds /\
    Forall is_setup setup /\
    is_construction c /\
    bound_to_tools setup c /\ bound_to_model setup c /\
    chat_turns turns /\ turns <> [].

(** What the code does with a response: the event right after the turn. *)
Definition printed (r : response) (rest : list event) : Prop :=
  match rest with
  | EvPrint s :: _ => s = str r
  | _ => False
  end.

Definition left_as_cell_value (r : response) (rest : list event) : Prop :=
  match rest with
  | EvDisplay s :: _ => s = repr r
  | _ => False
  end.

(** [P msg r rest] holds at every turn that returned: [msg] is the
    utterance, [r] the response and [rest] what the code did next. *)
Fixpoint each_response (P : string -> response -> list event -> Prop)
    (t : list event) : Prop :=
  match t with
  | [] => True
  | EvChat _ msg _ _ (inr r) :: rest | EvRun _ msg _ _ (inr r) :: rest =>
      P msg r rest /\ each_response P rest
  | _ :: rest => each_response P rest
  end.

Definition responses_printed (t : list event) : Prop :=
  each_response (fun _ r rest => printed r rest) t.

(** The last cell of the code-interpreter notebook is the bare
    expression [agent.chat("can you do it in one plot")]. *)
Definition last_utterance : string := "can you do it in one plot".

Definition responses_printed_or_shown (t : list event) : Prop :=
  each_response
    (fun msg r rest =>
       if decide (msg = last_utterance) then left_as_cell_value r rest
       else printed r rest) t.

(** The utterances sent to an agent, one per call made. *)
Fixpoint utterances (t : list event) : list string :=
  match t with
  | [] => []
  | EvChat _ msg _ _ _ :: rest | EvRun _ msg _ _ _ :: rest => msg :: utterances rest
  | _ :: rest => utterances rest
  end.

(** The texts the notebook's own code wrote to standard output, and
    the cell results it left for the notebook to show. *)
Fixpoint printed_texts (t : list event) : list string :=
  match t with
  | [] => []
  | EvPrint s :: rest => s :: printed_texts rest
  | _ :: rest => printed_texts rest
  end.

Fixpoint displayed_texts (t : list event) : list string :=
  match t with
  | [] => []
  | EvDisplay s :: rest => s :: displayed_texts rest
  | _ :: rest => displayed_texts rest
  end.

(** An event that called into llama-index or the OpenAI client; the
    others touch the process only. *)
Definition is_library_call (ev : event) : Prop :=
  match ev with
  | EvOpenAI _ _ _ | EvToolSpec _ _ | EvToToolList _ _ | EvFromTools _ _ _ _
  | EvFunctionAgent _ _ _ _ | EvChat _ _ _ _ _ | EvRun _ _ _ _ _ => True
  | _ => False
  end.

(** *** The credential *)

(** The value read from the environment is what the very next call
    hands over: to [openai.api_key] or to the [OpenAI] constructor. *)
Fixpoint key_forwarded (t : list event) : Prop :=
  match t with
  | [] => True
  | EvGetenv _ v :: rest =>
      match rest with
      | EvSetApiKey v' :: _ | EvOpenAI _ v' _ :: _ => v' = v
      | _ => False
      end /\ key_forwarded rest
  | _ :: rest => key_forwarded rest
  end.

(** A key with its content blanked: only whether there is one remains. *)
Definition blank (k : option string) : option string := (fun _ => "") <$> k.

(** Two environments, two [.env] files, two configurations that differ
    in the content of the key at most. *)
Definition same_key_shape (k1 k2 : option string) : Prop := blank k1 = blank k2.

Definition environ_but_key (e1 e2 : gmap string string) : Prop :=
  forall name, if decide (name = OPENAI_API_KEY)
               then same_key_shape (e1 !! name) (e2 !! name)
               else e1 !! name = e2 !! name.

Definition binding_but_key (b1 b2 : string * string) : Prop :=
  b1.1 = b2.1 /\ (b1.1 <> OPENAI_API_KEY -> b1.2 = b2.2).

Definition config_but_key (c1 c2 : config) : Prop :=
  environ_but_key c1.1 c2.1 /\ same_key_shape c1.2 c2.2.

(** What else two runs may differ in when their keys differ: whatever
    the library keeps of a key. The real client stores the key it is
    given and sends it with every request, so the client object, the state
    of an agent built on it and the outside world all depend on the key. *)
Record likeness : Type := {
  like_ext : ext -> ext -> Prop;
  like_llm : llm -> llm -> Prop;
  like_state : agent_state -> agent_state -> Prop
}.

(** Two results: the same exception, or two values that are alike. *)
Definition like_result {X : Type} (RX : X -> X -> Prop) (r1 r2 : exn + X) : Prop :=
  match r1, r2 with
  | inl e1, inl e2 => e1 = e2
  | inr x1, inr x2 => RX x1 x2
  | _, _ => False
  end.

Definition like_agent (R : likeness) (p1 p2 : agent * agent_state) : Prop :=
  p1.1 = p2.1 /\ like_state R p1.2 p2.2.

Definition worlds_alike (R : likeness) (w1 w2 : world) : Prop :=
  environ_but_key (environ w1) (environ w2) /\
  Forall2 binding_but_key (dotenv_file w1) (dotenv_file w2) /\
  same_key_shape (openai_api_key w1) (openai_api_key w2) /\
  Forall2 (like_state R) (agents w1) (agents w2) /\
  stdout w1 = stdout w2 /\
  displayed w1 = displayed w2 /\
  like_ext R (external w1) (external w2).

(** The library treats one key like another: called twice with
    arguments that are alike it raises the same exception or returns
    values that are alike, and gives the same answers. Nothing is asked of
    what it does with the key itself. *)
Definition treats_keys_alike (R : likeness) : Prop :=
  (forall x1 x2 c1 c2 model k1 k2,
     like_ext R x1 x2 -> config_but_key c1 c2 -> same_key_shape k1 k2 ->
     like_ext R (lib_OpenAI lib x1 c1 model k1).1 (lib_OpenAI lib x2 c2 model k2).1 /\
     like_result (like_llm R)
       (lib_OpenAI lib x1 c1 model k1).2 (lib_OpenAI lib x2 c2 model k2).2) /\
  (forall x1 x2 k, like_ext R x1 x2 ->
     like_ext R (lib_ToolSpec lib x1 k).1 (lib_ToolSpec lib x2 k).1 /\
     (lib_ToolSpec lib x1 k).2 = (lib_ToolSpec lib x2 k).2) /\
  (forall x1 x2 s, like_ext R x1 x2 ->
     like_ext R (lib_to_tool_list lib x1 s).1 (lib_to_tool_list lib x2 s).1 /\
     (lib_to_tool_list lib x1 s).2 = (lib_to_tool_list lib x2 s).2) /\
  (forall x1 x2 c1 c2 tools l1 l2 v,
     like_ext R x1 x2 -> config_but_key c1 c2 -> option_Forall2 (like_llm R) l1 l2 ->
     like_ext R (lib_from_tools lib x1 c1 tools l1 v).1
                (lib_from_tools lib x2 c2 tools l2 v).1 /\
     like_result (like_state R)
       (lib_from_tools lib x1 c1 tools l1 v).2 (lib_from_tools lib x2 c2 tools l2 v).2) /\
  (forall x1 x2 c1 c2 tools l1 l2 p,
     like_ext R x1 x2 -> config_but_key c1 c2 -> like_llm R l1 l2 ->
     like_ext R (lib_FunctionAgent lib x1 c1 tools l1 p).1
                (lib_FunctionAgent lib x2 c2 tools l2 p).1 /\
     like_result (like_state R)
       (lib_FunctionAgent lib x1 c1 tools l1 p).2
       (lib_FunctionAgent lib x2 c2 tools l2 p).2) /\
  (forall x1 x2 c1 c2 st1 st2 msg,
     like_ext R x1 x2 -> config_but_key c1 c2 -> like_state R st1 st2 ->
     like_ext R (lib_chat lib x1 c1 st1 msg).1.1 (lib_chat lib x2 c2 st2 msg).1.1 /\
     like_state R (lib_chat lib x1 c1 st1 msg).1.2 (lib_chat lib x2 c2 st2 msg).1.2 /\
     (lib_chat lib x1 c1 st1 msg).2 = (lib_chat lib x2 c2 st2 msg).2) /\
  (forall x1 x2 c1 c2 st1 st2 msg,
     like_ext R x1 x2 -> config_but_key c1 c2 -> like_state R st1 st2 ->
     like_ext R (lib_run lib x1 c1 st1 msg).1.1 (lib_run lib x2 c2 st2 msg).1.1 /\
     like_state R (lib_run lib x1 c1 st1 msg).1.2 (lib_run lib x2 c2 st2 msg).1.2 /\
     (lib_run lib x1 c1 st1 msg).2 = (lib_run lib x2 c2 st2 msg).2).

(** Two events that record the same call with the same result, up to
    the content of the key and what the library keeps of it. *)
Definition events_alike (R : likeness) (ev1 ev2 : event) : Prop :=
  match ev1, ev2 with
  | EvLoadDotenv o1 f1, EvLoadDotenv o2 f2 => o1 = o2 /\ f1 = f2
  | EvGetenv n1 v1, EvGetenv n2 v2 =>
      n1 = n2 /\
      if decide (n1 = OPENAI_API_KEY) then same_key_shape v1 v2 else v1 = v2
  | EvSetApiKey v1, EvSetApiKey v2 => same_key_shape v1 v2
  | EvOpenAI m1 k1 r1, EvOpenAI m2 k2 r2 =>
      m1 = m2 /\ same_key_shape k1 k2 /\ like_result (like_llm R) r1 r2
  | EvToolSpec k1 r1, EvToolSpec k2 r2 => k1 = k2 /\ r1 = r2
  | EvToToolList s1 r1, EvToToolList s2 r2 => s1 = s2 /\ r1 = r2
  | EvFromTools t1 l1 v1 r1, EvFromTools t2 l2 v2 r2 =>
      t1 = t2 /\ option_Forall2 (like_llm R) l1 l2 /\ v1 = v2 /\
      like_result (like_agent R) r1 r2
  | EvFunctionAgent t1 l1 p1 r1, EvFunctionAgent t2 l2 p2 r2 =>
      t1 = t2 /\ like_llm R l1 l2 /\ p1 = p2 /\ like_result (like_agent R) r1 r2
  | EvChat a1 m1 b1 a1' r1, EvChat a2 m2 b2 a2' r2
  | EvRun a1 m1 b1 a1' r1, EvRun a2 m2 b2 a2' r2 =>
      a1 = a2 /\ m1 = m2 /\ like_state R b1 b2 /\ like_state R a1' a2' /\ r1 = r2
  | EvPrint s1, EvPrint s2 | EvDisplay s1, EvDisplay s2 => s1 = s2
  | _, _ => False
  end.

(** The key is set nowhere: not in the environment, not in [.env]. *)
Definition key_unset (w : world) : Prop :=
  environ w !! OPENAI_API_KEY = None /\
  dotenv_values (dotenv_file w) !! OPENAI_API_KEY = None.

(** No key is handed over by this event. *)
Definition hands_no_key (ev : event) : Prop :=
  match ev with
  | EvGetenv _ v | EvSetApiKey v | EvOpenAI _ v _ => v = None
  | _ => True
  end.

(** *** The agent object *)

Definition constructions (t : list event) : nat :=
  list_sum (map (fun ev => match ev with
                           | EvFromTools _ _ _ _ | EvFunctionAgent _ _ _ _ => 1%nat
                           | _ => 0%nat
                           end) t).

(** [cur] is the agent object made so far and the state it is in.
    A construction happens while there is none; a turn is on that very
    object, sees the state the previous turn (or the construction) left,
    and leaves its own. *)
Fixpoint threaded (cur : option (agent * agent_state)) (t : list event) : Prop :=
  match t with
  | [] => True
  | EvFromTools _ _ _ (inr (a, st)) :: rest
  | EvFunctionAgent _ _ _ (inr (a, st)) :: rest =>
      cur = None /\ threaded (Some (a, st)) rest
  | EvChat a _ before after _ :: rest | EvRun a _ before after _ :: rest =>
      cur = Some (a, before) /\ threaded (Some (a, after)) rest
  | _ :: rest => threaded cur rest
  end.


(** Two calls that differ at most in the content of the key they carry
    and in the client they pass on, and what such calls return: only
    [os.getenv("OPENAI_API_KEY")] returns a key, only [OpenAI] a client. *)
Inductive calls_alike (R : likeness) : forall X : Type, call X -> call X -> Prop :=
| alike_load (o : bool) : calls_alike R bool (CLoadDotenv o) (CLoadDotenv o)
| alike_getenv (name : string) :
    calls_alike R (option string) (CGetenv name) (CGetenv name)
| alike_assignment (k1 k2 : option string) :
    same_key_shape k1 k2 -> calls_alike R unit (CSetApiKey k1) (CSetApiKey k2)
| alike_client (model : string) (k1 k2 : option string) :
    same_key_shape k1 k2 -> calls_alike R llm (COpenAI model k1) (COpenAI model k2)
| alike_tool_spec (k : toolkind) : calls_alike R toolspec (CToolSpec k) (CToolSpec k)
| alike_tool_list (s : toolspec) :
    calls_alike R (list tool) (CToToolList s) (CToToolList s)
| alike_from_tools (tools : list tool) (l1 l2 : option llm) (v : bool) :
    option_Forall2 (like_llm R) l1 l2 ->
    calls_alike R agent (CFromTools tools l1 v) (CFromTools tools l2 v)
| alike_function_agent (tools : list pyfunction) (l1 l2 : llm) (p : string) :
    like_llm R l1 l2 ->
    calls_alike R agent (CFunctionAgent tools l1 p) (CFunctionAgent tools l2 p)
| alike_chat (a : agent) (msg : string) :
    calls_alike R response (CChat a msg) (CChat a msg)
| alike_run (a : agent) (msg : string) :
    calls_alike R response (CRun a msg) (CRun a msg)
| alike_print (s : string) : calls_alike R unit (CPrint s) (CPrint s)
| alike_display (s : string) : calls_alike R unit (CDisplay s) (CDisplay s).

Definition results_alike (R : likeness) {X : Type} (c : call X) : X -> X -> Prop :=
  match c in call X return X -> X -> Prop with
  | CGetenv name =>
      if decide (name = OPENAI_API_KEY) then same_key_shape else eq
  | COpenAI _ _ => like_llm R
  | _ => eq
  end.

(** Two programs that make the same calls in the same order whatever
    the key read, up to the key handed on. *)
Inductive same_control_flow (R : likeness) {A : Type} : prog A -> prog A -> Prop :=
| scf_ret (a : A) : same_control_flow R (Ret a) (Ret a)
| scf_vis {X : Type} (c1 c2 : call X) (k1 k2 : X -> prog A) :
    calls_alike R X c1 c2 ->
    (forall x1 x2, results_alike R c1 x1 x2 -> same_control_flow R (k1 x1) (k2 x2)) ->
    same_control_flow R (Vis c1 k1) (Vis c2 k2).

(** Two ways a call was handled agree: the worlds left, the events
    recorded and the results. *)
Definition handled_alike (R : likeness) {X : Type} (c : call X)
    (h1 h2 : option (world * event * (exn + X))) : Prop :=
  match h1, h2 with
  | Some (w1, ev1, r1), Some (w2, ev2, r2) =>
      worlds_alike R w1 w2 /\ events_alike R ev1 ev2 /\
      like_result (results_alike R c) r1 r2
  | None, None => True
  | _, _ => False
  end.

(** The values [os.getenv("OPENAI_API_KEY")] returned. *)
Fixpoint keys_read (t : list event) : list (option string) :=
  match t with
  | [] => []
  | EvGetenv name v :: rest =>
      if decide (name = OPENAI_API_KEY) then v :: keys_read rest else keys_read rest
  | _ :: rest => keys_read rest
  end.

(** The utterances in a notebook's source, top to bottom. *)
Definition spoken (nb : notebook) : list string :=
  match nb with
  | FunctionAgentNb => ["What is 1234 * 4567?"]
  | CodeInterpreterNb =>
      ["Can you help me write some python code to pass to the code_interpreter tool";
       "There is a world_happiness_2016.csv file in the `data` directory (relative path).
                 Can you write and execute code to tell me columns does it have?";
       "What are the top 10 happiest countries";
       "Can you make a graph of the top 10 happiest countries";
       "I cant see the plot - can you save it locally with file name `output.png`?";
       "can you also plot the 10 lowest";
       last_utterance]
  | DuckDuckGoNb =>
      ["Quantum Computing and AI";
       "what are the latest developments in machine learning"]
  | ArxivNb => ["Whats going on with the superconductor lk-99"]
  end.

(** *** The claims as the specification words them *)

(** Every step in order, the agent built from exactly one tool, and
    every response printed. *)
Definition in_order_and_printed (t : list event) : Prop :=
  performs_in_order t /\ list_sum (map tools_given t) = 1%nat /\ responses_printed t.

(** One call per utterance and its response printed. *)
Definition one_call_then_print (t : list event) : Prop :=
  NoDup (utterances t) /\ responses_printed t.

(** The [.env] file is left as it was and standard output is the only
    output of the notebook's own code. *)
Definition only_standard_output (nb : notebook) (w : world) : Prop :=
  dotenv_file (final nb w) = dotenv_file w /\
  stdout (final nb w) = stdout w ++ printed_texts (trace_of nb w) /\
  displayed (final nb w) = displayed w.

(** *** More to read off a run *)

(** The responses the turns returned, in order. *)
Fixpoint responses (t : list event) : list response :=
  match t with
  | [] => []
  | EvChat _ _ _ _ (inr r) :: rest | EvRun _ _ _ _ (inr r) :: rest =>
      r :: responses rest
  | _ :: rest => responses rest
  end.

(** The code-interpreter notebook wraps its first six turns in [print]
    and leaves the seventh bare; the other notebooks print every turn. *)
Definition printed_responses (nb : notebook) (rs : list response) : list response :=
  match nb with
  | CodeInterpreterNb => take 6 rs
  | _ => rs
  end.

Definition cell_value_responses (nb : notebook) (rs : list response) : list response :=
  match nb with
  | CodeInterpreterNb => drop 6 rs
  | _ => []
  end.

(** The key a process ends up with when [.env] wins, and when the
    environment wins. *)
Definition file_then_environ (w : world) : option string :=
  match dotenv_values (dotenv_file w) !! OPENAI_API_KEY with
  | Some v => Some v
  | None => environ w !! OPENAI_API_KEY
  end.

Definition environ_then_file (w : world) : option string :=
  match environ w !! OPENAI_API_KEY with
  | Some v => Some v
  | None => dotenv_values (dotenv_file w) !! OPENAI_API_KEY
  end.

(** A key can be had: the environment or [.env] defines one. *)
Definition key_available (w : world) : Prop :=
  is_Some (environ w !! OPENAI_API_KEY) \/
  is_Some (dotenv_values (dotenv_file w) !! OPENAI_API_KEY).

(** The state the events of a trace leave the agent object in; [cur] is
    the state before them, if the object exists. *)
Fixpoint last_state (cur : option agent_state) (t : list event) : option agent_state :=
  match t with
  | [] => cur
  | EvFromTools _ _ _ (inr (_, st)) :: rest
  | EvFunctionAgent _ _ _ (inr (_, st)) :: rest => last_state (Some st) rest
  | EvChat _ _ _ after _ :: rest | EvRun _ _ _ after _ :: rest =>
      last_state (Some after) rest
  | _ :: rest => last_state cur rest
  end.

(** The world each call of a run is made in, one per event of the trace. *)
Fixpoint run_worlds {A : Type} (p : prog A) (w : world) : list world :=
  match p with
  | Ret _ => []
  | Vis c k =>
      match handle c w with
      | None => []
      | Some (_, _, inl _) => [w]
      | Some (w', _, inr x) => w :: run_worlds (k x) w'
      end
  | TryExcept body handler k =>
      run_worlds body w ++
      match run body w with
      | (w1, _, Done b) => run_worlds (k b) w1
      | (w1, _, Raised e) =>
          run_worlds (handler e) w1 ++
          match run (handler e) w1 with
          | (w2, _, Done b) => run_worlds (k b) w2
          | _ => []
          end
      | (_, _, Dangling) => []
      end
  end.

Definition worlds_of (nb : notebook) (w : world) : list world :=
  run_worlds (program nb) w.

End Program.

Arguments Ret {exn toolspec tool llm response A} a.
Arguments Vis {exn toolspec tool llm response A X} c k.
Arguments TryExcept {exn toolspec tool llm response A B} body handler k.
Arguments Done {exn A} a.
Arguments Raised {exn A} e.
Arguments Dangling {exn A}.


(** *** A library to run the notebooks against

    Stand-ins for llama-index and the OpenAI client, small enough to
    evaluate: an agent's state is the list of utterances it has been
    sent, a response repeats the utterance, and the outside world counts
    the calls made. *)

Definition echo_turn (x : nat) (c : config) (st : list string) (msg : string)
    : nat * list string * (string + string) :=
  (S x, st ++ [msg], inr ("re: " +:+ msg)).

Definition echo_lib
    : @Library string toolkind string string (list string) string nat :=
  {| lib_OpenAI x c model k := (S x, inr model);
     lib_ToolSpec x k := (S x, inr k);
     lib_to_tool_list x s := (S x, inr ["tool"]);
     lib_from_tools x c tools l verbose := (S x, inr []);
     lib_FunctionAgent x c tools l p := (S x, inr []);
     lib_chat := echo_turn;
     lib_run := echo_turn |}.

(** The same, but the client refuses to be built without a key, be it
    passed, assigned to [openai.api_key] or in the environment. *)
Definition has_key (c : config) (k : option string) : bool :=
  bool_decide (is_Some k) || bool_decide (is_Some c.2)
  || bool_decide (is_Some (c.1 !! OPENAI_API_KEY)).

Definition no_key : string := "No API key found for OpenAI.".

Definition strict_lib
    : @Library string toolkind string string (list string) string nat :=
  {| lib_OpenAI x c model k :=
       (S x, if has_key c k then inr model else inl no_key);
     lib_ToolSpec x k := (S x, inr k);
     lib_to_tool_list x s := (S x, inr ["tool"]);
     lib_from_tools x c tools l verbose :=
       (S x, if has_key c None then inr [] else inl no_key);
     lib_FunctionAgent x c tools l p := (S x, inr []);
     lib_chat := echo_turn;
     lib_run := echo_turn |}.

(** [str] of such a response is its text, [repr] shows the object. *)
Definition echo_str (r : string) : string := r.
Definition echo_repr (r : string) : string :=
  "AgentChatResponse(response='" +:+ r +:+ "')".

(** A process with no key anywhere, and one with a key both in its
    environment and in [.env]. *)
Definition bare_world : @world (list string) nat :=
  World ∅ [] None [] [] [] 0%nat.

Definition keyed_world (env_key file_key : string) : @world (list string) nat :=
  World {[ OPENAI_API_KEY := env_key ]} [(OPENAI_API_KEY, file_key)] None [] [] [] 0%nat.

(** A process whose only key is the one of [.env]. *)
Definition dotenv_world (file_key : string) : @world (list string) nat :=
  World ∅ [(OPENAI_API_KEY, file_key)] None [] [] [] 0%nat.

(** A library closer to the real one. A tool specification yields the
    tools llama-index gives it, two of them for DuckDuckGo. The client
    keeps the key it is built with (the one passed, else [openai.api_key],
    else the environment's), an agent keeps the key of its client, and
    every turn sends that key out: the outside world is the list of keys
    sent so far. *)
Definition tool_names (k : toolkind) : list string :=
  match k with
  | CodeInterpreter => ["code_interpreter"]
  | DuckDuckGoSearch => ["duckduckgo_instant_search"; "duckduckgo_full_search"]
  | Arxiv => ["arxiv_query"]
  end.

Definition resolve_key (c : config) (k : option string) : option string :=
  match k, c.2 with
  | Some v, _ | None, Some v => Some v
  | None, None => c.1 !! OPENAI_API_KEY
  end.

Definition keeping_turn (x : list (option string)) (c : config)
    (st : option string * list string) (msg : string)
    : list (option string) * (option string * list string) * (string + string) :=
  (x ++ [st.1], (st.1, st.2 ++ [msg]), inr ("re: " +:+ msg)).

Definition keeping_lib
    : @Library string toolkind string (string * option string)
               (option string * list string) string (list (option string)) :=
  {| lib_OpenAI x c model k :=
       (x, if has_key c k then inr (model, resolve_key c k) else inl no_key);
     lib_ToolSpec x k := (x, inr k);
     lib_to_tool_list x s := (x, inr (tool_names s));
     lib_from_tools x c tools l verbose :=
       (x, match l with
           | Some client => inr (client.2, [])
           | None => if has_key c None then inr (resolve_key c None, []) else inl no_key
           end);
     lib_FunctionAgent x c tools l p := (x, inr (l.2, []));
     lib_chat := keeping_turn;
     lib_run := keeping_turn |}.

(** Two such clients, agents or outside worlds are alike when they
    differ in the content of the keys they hold only. *)
Definition keeping_likeness
    : @likeness (string * option string) (option string * list string)
                (list (option string)) :=
  {| like_ext := Forall2 same_key_shape;
     like_llm l1 l2 := l1.1 = l2.1 /\ same_key_shape l1.2 l2.2;
     like_state st1 st2 := same_key_shape st1.1 st2.1 /\ st1.2 = st2.2 |}.

Definition kept_world (env_key file_key : string)
    : @world (option string * list string) (list (option string)) :=
  World {[ OPENAI_API_KEY := env_key ]} [(OPENAI_API_KEY, file_key)] None [] [] [] [].

(** What a handler would change. No notebook has one; this is a
    notebook wrapped in [try: ... except Exception as e: print(e)]. *)
Definition guarded (p : @prog string toolkind string string string unit)
    : @prog string toolkind string string string unit :=
  TryExcept p (fun e => print e) Ret.

End Notebooks.

(** ** What [multiply] returns *)

Module MultiplyFacts.
Import PyNum.

Lemma digits2_pos_bounds (m : positive) :
  2 ^ (Z.pos (digits2_pos m) - 1) <= Z.pos m < 2 ^ Z.pos (digits2_pos m).
Proof.
  induction m as [m IH|m IH|]; cbn [digits2_pos].
  - rewrite Pos2Z.inj_succ.
    replace (Z.succ (Z.pos (digits2_pos m)) - 1) with (Z.succ (Z.pos (digits2_pos m) - 1)) by lia.
    rewrite !Z.pow_succ_r by lia. lia.
  - rewrite Pos2Z.inj_succ.
    replace (Z.succ (Z.pos (digits2_pos m)) - 1) with (Z.succ (Z.pos (digits2_pos m) - 1)) by lia.
    rewrite !Z.pow_succ_r by lia. lia.
  - cbn. lia.
Qed.

Lemma digits_unique (m d d' : Z) :
  2 ^ (d - 1) <= m < 2 ^ d -> 2 ^ (d' - 1) <= m < 2 ^ d' -> 0 < d -> 0 < d' -> d = d'.
Proof.
  intros [H1 H2] [H3 H4] Hd Hd'.
  assert (d - 1 < d') by (apply (Z.pow_lt_mono_r_iff 2); lia).
  assert (d' - 1 < d) by (apply (Z.pow_lt_mono_r_iff 2); lia).
  lia.
Qed.

Lemma digits2_pos_shift (m p : positive) (n : Z) :
  0 <= n -> Z.pos p = Z.pos m * 2 ^ n ->
  Z.pos (digits2_pos p) = Z.pos (digits2_pos m) + n.
Proof.
  intros Hn Hp.
  apply (digits_unique (Z.pos p)); try lia.
  - apply digits2_pos_bounds.
  - pose proof (digits2_pos_bounds m) as [Hlo Hhi].
    replace (Z.pos (digits2_pos m) + n - 1) with ((Z.pos (digits2_pos m) - 1) + n) by lia.
    rewrite !Z.pow_add_r by lia. rewrite Hp.
    assert (0 < 2 ^ n) by (apply Z.pow_pos_nonneg; lia). nia.
Qed.

Lemma digits2_pos_mul (a b : positive) :
  Z.pos (digits2_pos a) + Z.pos (digits2_pos b) - 1 <= Z.pos (digits2_pos (a * b)).
Proof.
  pose proof (digits2_pos_bounds a) as [Ha _].
  pose proof (digits2_pos_bounds b) as [Hb _].
  pose proof (digits2_pos_bounds (a * b)) as [_ Hab].
  rewrite Pos2Z.inj_mul in Hab.
  assert (H : 2 ^ (Z.pos (digits2_pos a) - 1 + (Z.pos (digits2_pos b) - 1)) < 2 ^ Z.pos (digits2_pos (a * b))).
  { rewrite Z.pow_add_r by lia.
    assert (0 < 2 ^ (Z.pos (digits2_pos a) - 1)) by (apply Z.pow_pos_nonneg; lia).
    assert (0 < 2 ^ (Z.pos (digits2_pos b) - 1)) by (apply Z.pow_pos_nonneg; lia).
    nia. }
  apply Z.pow_lt_mono_r_iff in H; lia.
Qed.

Lemma shr_1_exact (m : Z) : 0 <= m -> shr_1 (exact_rec (2 * m)) = exact_rec m.
Proof. intros Hm. destruct m as [|p|p]; [reflexivity | reflexivity | lia]. Qed.

Lemma iter_shr_1_exact (n : positive) : forall m : Z,
  0 <= m -> SpecFloat.iter_pos shr_1 n (exact_rec (m * 2 ^ Z.pos n)) = exact_rec m.
Proof.
  induction n as [n IH|n IH|]; intros m Hm; cbn [SpecFloat.iter_pos].
  - assert (Hp : 0 < 2 ^ Z.pos n) by (apply Z.pow_pos_nonneg; lia).
    assert (E : Z.pos n~1 = Z.pos n + Z.pos n + 1) by lia.
    replace (m * 2 ^ Z.pos n~1) with (2 * ((m * 2 ^ Z.pos n) * 2 ^ Z.pos n))
      by (rewrite E, !Z.pow_add_r, Z.pow_1_r by lia; ring).
    rewrite shr_1_exact by nia. rewrite IH by nia. apply IH, Hm.
  - assert (Hp : 0 < 2 ^ Z.pos n) by (apply Z.pow_pos_nonneg; lia).
    assert (E : Z.pos n~0 = Z.pos n + Z.pos n) by lia.
    replace (m * 2 ^ Z.pos n~0) with ((m * 2 ^ Z.pos n) * 2 ^ Z.pos n)
      by (rewrite E, !Z.pow_add_r by lia; ring).
    rewrite IH by nia. apply IH, Hm.
  - replace (m * 2 ^ 1) with (2 * m) by (rewrite Z.pow_1_r; ring).
    apply shr_1_exact, Hm.
Qed.

Lemma bounded_inv (m : positive) (e : Z) :
  bounded prec emax m e = true ->
  fexp prec emax (Z.pos (digits2_pos m) + e) = e /\ e <= emax - prec.
Proof.
  unfold bounded, canonical_mantissa. intros H.
  apply andb_true_iff in H as [H1 H2].
  apply Z.eqb_eq in H1. apply Z.leb_le in H2. auto.
Qed.

Lemma binary_round_aux_exact (s : bool) (p mz : positive) (e ez : Z) :
  e <= ez -> Z.pos p = Z.pos mz * 2 ^ (ez - e) ->
  bounded prec emax mz ez = true ->
  binary_round_aux prec emax s (Z.pos p) e loc_Exact = S754_finite s mz ez.
Proof.
  intros Hle Hp Hb. apply bounded_inv in Hb as [Hcanon Hmax].
  assert (Hd : Z.pos (digits2_pos p) + e = Z.pos (digits2_pos mz) + ez).
  { rewrite (digits2_pos_shift mz p (ez - e)) by (lia || assumption). lia. }
  assert (Hsnd : shr_fexp prec emax (Z.pos mz) ez loc_Exact = (exact_rec (Z.pos mz), ez)).
  { unfold shr_fexp. cbn [Zdigits2 shr_record_of_loc]. rewrite Hcanon, Z.sub_diag. reflexivity. }
  assert (Hfst : shr_fexp prec emax (Z.pos p) e loc_Exact = (exact_rec (Z.pos mz), ez)).
  { unfold shr_fexp. cbn [Zdigits2 shr_record_of_loc]. rewrite Hd, Hcanon.
    destruct (ez - e) as [|n|n] eqn:Hn; [| |lia].
    - cbn [shr]. rewrite Z.pow_0_r, Z.mul_1_r in Hp. rewrite Hp.
      replace e with ez by lia. reflexivity.
    - cbn [shr]. rewrite Hp. fold (exact_rec (Z.pos mz * 2 ^ Z.pos n)).
      rewrite iter_shr_1_exact by lia. f_equal. lia. }
  unfold binary_round_aux. rewrite Hfst. cbn [exact_rec shr_m loc_of_shr_record round_nearest_even].
  rewrite Hsnd. cbn [exact_rec shr_m].
  apply Z.leb_le in Hmax. rewrite Hmax. reflexivity.
Qed.

Lemma two_neq_0 : ~ ((2 # 1) == 0)%Q.
Proof. discriminate. Qed.

Lemma dyadic_eq (a b e1 e2 : Z) :
  (inject_Z a * (2 # 1) ^ e1 == inject_Z b * (2 # 1) ^ e2)%Q -> e2 <= e1 ->
  a * 2 ^ (e1 - e2) = b.
Proof.
  intros H Hle.
  replace e1 with ((e1 - e2) + e2) in H by lia.
  rewrite Qpower_plus in H by apply two_neq_0.
  rewrite Qmult_assoc in H.
  apply Qmult_inj_r in H; [|apply Qpower_not_0, two_neq_0].
  change (2 # 1)%Q with (inject_Z 2) in H.
  rewrite <- Zpower_Qpower, <- inject_Z_mult in H by lia.
  exact (proj1 (inject_Z_injective _ _) H).
Qed.

Lemma signed_product (sx sy sz : bool) (mx my mz : positive) (n : Z) :
  0 <= n -> signed sz mz * 2 ^ n = signed sx mx * signed sy my ->
  sz = xorb sx sy /\ Z.pos (mx * my) = Z.pos mz * 2 ^ n.
Proof.
  intros Hn H. assert (0 < 2 ^ n) by (apply Z.pow_pos_nonneg; lia).
  rewrite Pos2Z.inj_mul.
  destruct sx, sy, sz; cbn [signed xorb] in *; split; try reflexivity; nia.
Qed.

Lemma product_exponent_bound (mx my : positive) (ex ey : Z) :
  bounded prec emax mx ex = true -> bounded prec emax my ey = true ->
  ex + ey <= fexp prec emax (Z.pos (digits2_pos (mx * my)) + (ex + ey)).
Proof.
  intros Hx Hy. apply bounded_inv in Hx as [Hx _]. apply bounded_inv in Hy as [Hy _].
  pose proof (digits2_pos_mul mx my).
  unfold fexp, emin, prec, emax in *. lia.
Qed.

Lemma SF2Q_finite (s : bool) (m : positive) (e : Z) :
  SF2Q (S754_finite s m e) = Some (inject_Z (signed s m) * (2 # 1) ^ e)%Q.
Proof. reflexivity. Qed.

Lemma float_mul_finite_exact (sx sy sz : bool) (mx my mz : positive) (ex ey ez : Z) :
  bounded prec emax mx ex = true -> bounded prec emax my ey = true ->
  bounded prec emax mz ez = true ->
  (inject_Z (signed sz mz) * (2 # 1) ^ ez ==
   inject_Z (signed sx mx) * (2 # 1) ^ ex * (inject_Z (signed sy my) * (2 # 1) ^ ey))%Q ->
  float_mul (S754_finite sx mx ex) (S754_finite sy my ey) = S754_finite sz mz ez.
Proof.
  intros Hx Hy Hz Hq.
  assert (Hq' : (inject_Z (signed sz mz) * (2 # 1) ^ ez ==
                 inject_Z (signed sx mx * signed sy my) * (2 # 1) ^ (ex + ey))%Q).
  { rewrite Hq, inject_Z_mult, Qpower_plus by apply two_neq_0. ring. }
  pose proof (product_exponent_bound mx my ex ey Hx Hy) as Hbound.
  destruct (bounded_inv _ _ Hz) as [Hcanon _].
  assert (Hle : ex + ey <= ez).
  { destruct (Z_le_gt_dec (ex + ey) ez) as [|Hgt]; [assumption|exfalso].
    symmetry in Hq'. apply dyadic_eq in Hq'; [|lia].
    assert (Hm : Z.pos mz = Z.pos (mx * my) * 2 ^ (ex + ey - ez)).
    { assert (0 < 2 ^ (ex + ey - ez)) by (apply Z.pow_pos_nonneg; lia).
      rewrite Pos2Z.inj_mul. destruct sx, sy, sz; cbn [signed] in Hq'; nia. }
    apply digits2_pos_shift in Hm; [|lia].
    replace (Z.pos (digits2_pos mz) + ez)
      with (Z.pos (digits2_pos (mx * my)) + (ex + ey)) in Hcanon by lia.
    lia. }
  apply dyadic_eq in Hq'; [|assumption].
  apply signed_product in Hq' as [-> Hp]; [|lia].
  unfold float_mul. cbn [SFmul].
  apply binary_round_aux_exact; assumption.
Qed.

Lemma finite_product_nonzero (sx sy : bool) (mx my : positive) (ex ey : Z) :
  ~ (0 == inject_Z (signed sx mx) * (2 # 1) ^ ex * (inject_Z (signed sy my) * (2 # 1) ^ ey))%Q.
Proof.
  intros H.
  assert (H' : (inject_Z 0 * (2 # 1) ^ (ex + ey) ==
                inject_Z (signed sx mx * signed sy my) * (2 # 1) ^ (ex + ey))%Q).
  { rewrite inject_Z_mult, Qpower_plus by apply two_neq_0.
    transitivity 0%Q; [ring|]. rewrite H. ring. }
  apply dyadic_eq in H'; [|lia].
  destruct sx, sy; cbn [signed] in H'; lia.
Qed.

Lemma float_mul_exact (x y : spec_float) (qx qy : Q) :
  is_binary64 x -> is_binary64 y -> SF2Q x = Some qx -> SF2Q y = Some qy ->
  representable (qx * qy) ->
  exists qr, SF2Q (float_mul x y) = Some qr /\ (qr == qx * qy)%Q.
Proof.
  intros Hx Hy Hqx Hqy (z & qz & Hz & Hqz & Heq).
  destruct x as [sx|sx| |sx mx ex], y as [sy|sy| |sy my ey]; try discriminate;
    cbn in Hqx, Hqy; injection Hqx as <-; injection Hqy as <-.
  - exists 0%Q. split; [reflexivity|ring].
  - exists 0%Q. split; [reflexivity|ring].
  - exists 0%Q. split; [reflexivity|ring].
  - destruct z as [sz|sz| |sz mz ez]; try discriminate; cbn in Hqz; injection Hqz as <-.
    + exfalso. by apply (finite_product_nonzero sx sy mx my ex ey).
    + rewrite (float_mul_finite_exact sx sy sz mx my mz ex ey ez Hx Hy Hz Heq).
      eexists. split; [reflexivity|exact Heq].
Qed.

(** C1 (amended). [multiply] returns exactly the product a·b for two
    [int] arguments, and for two [float] arguments whenever the product is
    itself a binary64 value; it has no other effect, being a function. *)
Theorem multiply_exact_when_representable (a b : pynum) (qa qb : Q) :
  well_formed a -> well_formed b -> value a = Some qa -> value b = Some qb ->
  product_fits a b (qa * qb) ->
  returns_exactly (multiply a b) (qa * qb).
Proof.
  intros Ha Hb Hqa Hqb Hfit.
  destruct a as [m|x], b as [n|y]; cbn in Hfit; try contradiction.
  - cbn in Hqa, Hqb. injection Hqa as <-. injection Hqb as <-.
    exists (PyInt (m * n)), (inject_Z (m * n)).
    split; [reflexivity|]. split; [reflexivity|]. by rewrite inject_Z_mult.
  - destruct (float_mul_exact x y qa qb Ha Hb Hqa Hqb Hfit) as (qr & Hqr & Heq).
    exists (PyFloat (float_mul x y)), qr. done.
Qed.

Lemma float_mul_comm (x y : spec_float) : float_mul x y = float_mul y x.
Proof.
  unfold float_mul.
  destruct x as [sx|sx| |sx mx ex], y as [sy|sy| |sy my ey]; cbn [SFmul];
    rewrite ?(xorb_comm sx sy); try reflexivity.
  by rewrite (Pos.mul_comm mx my), (Z.add_comm ex ey).
Qed.

Lemma py_mul_comm (a b : pynum) : py_mul a b = py_mul b a.
Proof.
  destruct a as [m|x], b as [n|y]; cbn [py_mul].
  - by rewrite Z.mul_comm.
  - destruct (float_of_int m); [done|]. by rewrite float_mul_comm.
  - destruct (float_of_int n); [done|]. by rewrite float_mul_comm.
  - by rewrite float_mul_comm.
Qed.

(** [==] holds of a number and itself, unless it is a NaN. *)
Lemma py_eq_refl (c : pynum) : ~ is_a_nan c -> py_eq c c = true.
Proof.
  intros Hc. destruct c as [n|x]; cbn [py_eq]; [apply Z.eqb_refl|].
  destruct x as [s|s| |s m e]; [by destruct s|by destruct s|by destruct Hc|].
  unfold SFeqb, SFcompare. rewrite Z.compare_refl. fold (Pos.compare m m).
  rewrite Pos.compare_refl. by destruct s.
Qed.

(** C8 (amended). [multiply] is commutative wherever the product is not a
    NaN: [multiply(a, b)] and [multiply(b, a)] then return the very same
    number, for which [==] holds, or raise the same exception. *)
Theorem multiply_comm_unless_nan (a b : pynum) :
  ~ returns_a_nan (multiply a b) ->
  multiply a b = multiply b a /\ commutes a b.
Proof.
  intros Hnan. unfold commutes, multiply in *. rewrite <- (py_mul_comm a b).
  split; [reflexivity|].
  destruct (py_mul a b) as [e|c]; cbn; [reflexivity|].
  apply py_eq_refl. intros ->. by apply Hnan.
Qed.

(** C8 as worded fails where the product is a NaN: [inf * 0.0] and
    [0.0 * inf] are both NaN, and [==] does not hold of two NaNs. *)
Lemma multiply_inf_zero_not_equal :
  multiply (PyFloat infinity) (PyFloat zero) = inr (PyFloat S754_nan) /\
  multiply (PyFloat zero) (PyFloat infinity) = inr (PyFloat S754_nan) /\
  ~ commutes (PyFloat infinity) (PyFloat zero).
Proof. repeat split. vm_compute. discriminate. Qed.

(** The notebook's question either way round: 1234 * 4567.0. *)
Lemma multiply_comm_unless_nan_witness :
  let a := PyInt 1234 in
  let b := PyFloat (S754_finite false 5021469604052992 (-40)) in
  ~ returns_a_nan (multiply a b) /\ multiply a b = multiply b a /\ commutes a b.
Proof.
  assert (Hnan : ~ returns_a_nan
            (multiply (PyInt 1234) (PyFloat (S754_finite false 5021469604052992 (-40))))).
  { vm_compute. discriminate. }
  split; [exact Hnan|].
  apply multiply_comm_unless_nan. exact Hnan.
Defined.

(** C1 as worded fails on floats: [0.1 * 0.1] is rounded, Python prints
    it as 0.010000000000000002. *)
Lemma multiply_tenth_rounds :
  multiply (PyFloat tenth) (PyFloat tenth) =
    inr (PyFloat (S754_finite false 5764607523034236 (-59))) /\
  ~ exact_product (PyFloat tenth) (PyFloat tenth).
Proof.
  split; [vm_compute; reflexivity|].
  intros H. destruct (H _ _ eq_refl eq_refl) as (c & q & Hc & Hq & Heq).
  vm_compute in Hc. injection Hc as <-. vm_compute in Hq. injection Hq as <-.
  vm_compute in Heq. discriminate Heq.
Qed.

(** The notebook's own question: 1234.0 * 4567.0 is 5635678.0, exactly. *)
Lemma multiply_exact_witness :
  let a := PyFloat (S754_finite false 5427189394702336 (-42)) in
  let b := PyFloat (S754_finite false 5021469604052992 (-40)) in
  let qa := (inject_Z 5427189394702336 * (2 # 1) ^ (-42))%Q in
  let qb := (inject_Z 5021469604052992 * (2 # 1) ^ (-40))%Q in
  well_formed a /\ well_formed b /\ value a = Some qa /\ value b = Some qb /\
  product_fits a b (qa * qb) /\ returns_exactly (multiply a b) (qa * qb).
Proof.
  assert (Hfit : representable
            (inject_Z 5427189394702336 * (2 # 1) ^ (-42) *
             (inject_Z 5021469604052992 * (2 # 1) ^ (-40)))).
  { exists (S754_finite false 6051263175196672 (-30)); eexists.
    split; [reflexivity|]. split; [reflexivity|]. vm_compute. reflexivity. }
  repeat (split; [first [reflexivity | exact Hfit]|]).
  apply multiply_exact_when_representable; first [reflexivity | exact Hfit].
Defined.

(** *** More about [multiply] *)

Lemma float_mul_one_l (x : spec_float) : is_binary64 x -> float_mul one x = x.
Proof.
  intros Hx. destruct x as [s|s| |s m e]; try reflexivity.
  unfold float_mul, one. cbn [SFmul xorb].
  apply binary_round_aux_exact; [lia| |exact Hx].
  replace (e - (-52 + e)) with 52 by lia. rewrite Pos2Z.inj_mul. lia.
Qed.

(** X1. One is neutral: [multiply(1, n)] is [n] for every [int], and
    [multiply(1.0, x)], [multiply(x, 1.0)], [multiply(1, x)] and
    [multiply(x, 1)] are [x] for every [float] that is not a NaN, signed
    zeros and infinities included. *)
Theorem one_is_neutral (a : pynum) :
  well_formed a -> ~ is_a_nan a ->
  match a with
  | PyInt n => multiply (PyInt 1) a = inr a /\ multiply a (PyInt 1) = inr a
  | PyFloat x =>
      multiply (PyFloat one) a = inr a /\ multiply a (PyFloat one) = inr a /\
      multiply (PyInt 1) a = inr a /\ multiply a (PyInt 1) = inr a
  end.
Proof.
  intros Ha _. destruct a as [n|x]; cbn [multiply py_mul].
  - by rewrite Z.mul_1_l, Z.mul_1_r.
  - change (float_of_int 1) with (@inr pyexn _ one). cbv beta iota.
    rewrite (float_mul_comm x one), (float_mul_one_l x Ha). done.
Qed.

Lemma iter_xO_pow2 (m k : positive) :
  Z.pos (Pos.iter xO m k) = Z.pos m * 2 ^ Z.pos k.
Proof.
  induction k as [|k IH] using Pos.peano_ind.
  - cbn [Pos.iter]. lia.
  - rewrite Pos.iter_succ, Pos2Z.inj_xO, IH, Pos2Z.inj_succ, Z.pow_succ_r by lia. ring.
Qed.

Lemma digits2_pos_le (m : positive) (d : Z) :
  Z.pos m < 2 ^ d -> 0 <= d -> Z.pos (digits2_pos m) <= d.
Proof.
  intros Hm Hd. pose proof (digits2_pos_bounds m) as [Hlo _].
  assert (H : 2 ^ (Z.pos (digits2_pos m) - 1) < 2 ^ d) by lia.
  apply Z.pow_lt_mono_r_iff in H; lia.
Qed.

(** An integer below 2^53 in magnitude has a double of its own. *)
Lemma binary_round_small (s : bool) (m : positive) :
  Z.pos m < 2 ^ 53 ->
  exists mz ez, binary_round prec emax s m 0 = S754_finite s mz ez /\
                bounded prec emax mz ez = true /\
                ez <= 0 /\ Z.pos mz = Z.pos m * 2 ^ (- ez).
Proof.
  intros Hm. pose proof (digits2_pos_le m 53 Hm ltac:(lia)) as Hd.
  unfold binary_round.
  assert (Hf : fexp prec emax (Z.pos (digits2_pos m) + 0) = Z.pos (digits2_pos m) - 53).
  { unfold fexp, emin, prec, emax. lia. }
  rewrite Hf. unfold shl_align.
  destruct (Z.pos (digits2_pos m) - 53 - 0) as [|k|k] eqn:Hk; [|lia|].
  - exists m, 0. assert (Hb : bounded prec emax m 0 = true).
    { unfold bounded, canonical_mantissa. rewrite Hf.
      apply andb_true_iff. split; [apply Z.eqb_eq; lia|reflexivity]. }
    split; [|split; [exact Hb|split; [lia|cbn; lia]]].
    apply binary_round_aux_exact; [lia| |exact Hb]. rewrite Z.sub_diag. cbn. lia.
  - pose proof (iter_xO_pow2 m k) as Hmz.
    exists (Pos.iter xO m k), (Z.pos (digits2_pos m) - 53).
    assert (Hb : bounded prec emax (Pos.iter xO m k) (Z.pos (digits2_pos m) - 53) = true).
    { unfold bounded, canonical_mantissa.
      rewrite (digits2_pos_shift m (Pos.iter xO m k) (Z.pos k)) by (lia || assumption).
      apply andb_true_iff. split; [apply Z.eqb_eq|apply Z.leb_le].
      - unfold fexp, emin, prec, emax. lia.
      - unfold prec, emax. lia. }
    split; [|split; [exact Hb|split; [lia|]]].
    + apply binary_round_aux_exact; [lia| |exact Hb]. rewrite Z.sub_diag. cbn. lia.
    + rewrite Hmz. f_equal. f_equal. lia.
Qed.

Lemma signed_scale (s : bool) (m mz : positive) (k : Z) :
  Z.pos mz = Z.pos m * 2 ^ k -> signed s mz = signed s m * 2 ^ k.
Proof.
  intros H. destruct s; cbn [signed]; [|exact H].
  rewrite <- !Pos2Z.opp_pos, H. ring.
Qed.

Lemma dyadic_scale (a k : Z) :
  0 <= k -> (inject_Z (a * 2 ^ k) * (2 # 1) ^ (- k) == inject_Z a)%Q.
Proof.
  intros Hk. rewrite inject_Z_mult.
  change (2 # 1)%Q with (inject_Z 2). rewrite (Zpower_Qpower 2 k) by lia.
  rewrite <- Qmult_assoc, <- Qpower_plus by discriminate.
  replace (k + - k) with 0 by lia. cbn. ring.
Qed.

Lemma float_of_int_small (n : Z) :
  fits_double_exactly n ->
  exists x, float_of_int n = inr x /\ is_binary64 x /\
            exists q, SF2Q x = Some q /\ (q == inject_Z n)%Q.
Proof.
  unfold fits_double_exactly. intros Hn.
  assert (Hsign : forall s m, Z.pos m < 2 ^ 53 ->
            exists x, match binary_round prec emax s m 0 with
                      | S754_infinity _ => inl OverflowError
                      | x => inr x
                      end = inr x /\ is_binary64 x /\
                      exists q, SF2Q x = Some q /\ (q == inject_Z (signed s m))%Q).
  { intros s m Hm.
    destruct (binary_round_small s m Hm) as (mz & ez & -> & Hb & Hez & Hmz).
    exists (S754_finite s mz ez). split; [reflexivity|]. split; [exact Hb|].
    eexists. split; [reflexivity|].
    rewrite (signed_scale s m mz (- ez) Hmz).
    replace ez with (- - ez) at 2 by lia. apply dyadic_scale. lia. }
  unfold float_of_int, binary_normalize. destruct n as [|m|m].
  - exists (S754_zero false). split; [reflexivity|]. split; [reflexivity|].
    exists 0%Q. split; reflexivity.
  - apply (Hsign false m). lia.
  - apply (Hsign true m). lia.
Qed.

(** X3. An [int] below 2^53 in magnitude together with a [float]:
    [multiply] does not raise, and returns exactly the product whenever the
    product is a binary64 value, in either order of the arguments. *)
Theorem multiply_small_int_exact (n : Z) (y : spec_float) (qy : Q) :
  fits_double_exactly n -> is_binary64 y -> SF2Q y = Some qy ->
  representable (inject_Z n * qy) ->
  returns_exactly (multiply (PyInt n) (PyFloat y)) (inject_Z n * qy) /\
  returns_exactly (multiply (PyFloat y) (PyInt n)) (qy * inject_Z n).
Proof.
  intros Hn Hy Hqy Hrep.
  destruct (float_of_int_small n Hn) as (x & Hx & Hbx & q & Hq & Hqn).
  assert (Hrep' : representable (q * qy)).
  { destruct Hrep as (z & qz & Hz & Hqz & Heq). exists z, qz.
    repeat split; try assumption. by rewrite Heq, Hqn. }
  destruct (float_mul_exact x y q qy Hbx Hy Hq Hqy Hrep') as (qr & Hqr & Heq).
  cbn [multiply py_mul]. rewrite Hx. split.
  - exists (PyFloat (float_mul x y)), qr. repeat split; try assumption.
    by rewrite Heq, Hqn.
  - exists (PyFloat (float_mul y x)), qr. rewrite (float_mul_comm y x).
    repeat split; try assumption. rewrite Heq, Hqn. ring.
Qed.

Lemma shr_1_m (mrs : shr_record) :
  0 <= shr_m mrs -> shr_m (shr_1 mrs) = shr_m mrs / 2.
Proof.
  destruct mrs as [m r s]. cbn [shr_m]. intros Hm.
  destruct m as [|[p|p|]|p]; cbn [shr_1 shr_m]; try reflexivity; try lia.
  - rewrite Pos2Z.inj_xI. apply (Z.div_unique _ _ _ 1); lia.
  - rewrite Pos2Z.inj_xO. apply (Z.div_unique _ _ _ 0); lia.
Qed.

Lemma pow2_xO (n : positive) : 2 ^ Z.pos n~0 = 2 ^ Z.pos n * 2 ^ Z.pos n.
Proof. rewrite <- Z.pow_add_r by lia. f_equal. lia. Qed.

Lemma pow2_xI (n : positive) : 2 ^ Z.pos n~1 = 2 * (2 ^ Z.pos n * 2 ^ Z.pos n).
Proof.
  rewrite <- Z.pow_add_r by lia. rewrite <- (Z.pow_succ_r 2) by lia. f_equal. lia.
Qed.

Lemma iter_shr_1_m (n : positive) : forall mrs : shr_record,
  0 <= shr_m mrs ->
  shr_m (SpecFloat.iter_pos shr_1 n mrs) = shr_m mrs / 2 ^ Z.pos n.
Proof.
  assert (Hpos : forall k, 0 < 2 ^ Z.pos k) by (intros; apply Z.pow_pos_nonneg; lia).
  induction n as [n IH|n IH|]; intros mrs Hm; cbn [SpecFloat.iter_pos].
  - pose proof (Hpos n).
    assert (H1 : 0 <= shr_m (shr_1 mrs)).
    { rewrite shr_1_m by assumption. apply Z.div_pos; lia. }
    assert (H2 : 0 <= shr_m (SpecFloat.iter_pos shr_1 n (shr_1 mrs))).
    { rewrite IH by assumption. apply Z.div_pos; lia. }
    rewrite IH, IH, shr_1_m by assumption.
    rewrite !Z.div_div by lia. by rewrite pow2_xI, Z.mul_assoc.
  - pose proof (Hpos n).
    assert (H2 : 0 <= shr_m (SpecFloat.iter_pos shr_1 n mrs)).
    { rewrite IH by assumption. apply Z.div_pos; lia. }
    rewrite IH, IH by assumption.
    rewrite !Z.div_div by lia. by rewrite pow2_xO.
  - rewrite shr_1_m by assumption. reflexivity.
Qed.

Lemma round_nearest_even_bounds (m : Z) (l : location) :
  m <= round_nearest_even m l <= m + 1.
Proof.
  destruct l as [|[| |]]; cbn [round_nearest_even]; try lia.
  destruct (Z.even m); lia.
Qed.

Lemma digits2_pos_eq (m : positive) (d : Z) :
  2 ^ (d - 1) <= Z.pos m < 2 ^ d -> 0 < d -> Z.pos (digits2_pos m) = d.
Proof.
  intros Hm Hd. apply (digits_unique (Z.pos m)); try lia. apply digits2_pos_bounds.
Qed.

(** An integer of magnitude 2^1024 or more rounds to no double. *)
Lemma binary_round_huge (s : bool) (m : positive) :
  2 ^ 1024 <= Z.pos m -> binary_round prec emax s m 0 = S754_infinity s.
Proof.
  intros Hm. pose proof (digits2_pos_bounds m) as [Hlo Hhi].
  set (d := Z.pos (digits2_pos m)) in *.
  assert (Hd : 1024 < d).
  { assert (H : 2 ^ 1024 < 2 ^ d) by lia. apply Z.pow_lt_mono_r_iff in H; lia. }
  assert (Hf : fexp prec emax (d + 0) = d - 53).
  { unfold fexp, emin, prec, emax. lia. }
  unfold binary_round. fold d. rewrite Hf. unfold shl_align.
  destruct (d - 53 - 0) as [|k|k] eqn:Hk; try lia.
  unfold binary_round_aux, shr_fexp at 1. cbn [Zdigits2 shr_record_of_loc]. fold d.
  rewrite Z.add_0_r in Hf. rewrite Z.add_0_r, Hf, Z.sub_0_r.
  assert (Hdk : d = Z.pos k + 53) by lia.
  replace (d - 53) with (Z.pos k) by lia. cbn [shr].
  fold (exact_rec (Z.pos m)).
  set (mrs := SpecFloat.iter_pos shr_1 k (exact_rec (Z.pos m))).
  assert (Hm1 : shr_m mrs = Z.pos m / 2 ^ Z.pos k)
    by (apply (iter_shr_1_m k (exact_rec (Z.pos m))); cbn; lia).
  assert (Hpk : 0 < 2 ^ Z.pos k) by (apply Z.pow_pos_nonneg; lia).
  assert (Hb1 : 2 ^ 52 <= shr_m mrs < 2 ^ 53).
  { rewrite Hm1. split.
    - apply Z.div_le_lower_bound; [lia|].
      rewrite <- Z.pow_add_r by lia. replace (Z.pos k + 52) with (d - 1) by lia. lia.
    - apply Z.div_lt_upper_bound; [lia|].
      rewrite <- Z.pow_add_r by lia. replace (Z.pos k + 53) with d by lia. lia. }
  pose proof (round_nearest_even_bounds (shr_m mrs) (loc_of_shr_record mrs)) as Hr.
  set (m2 := round_nearest_even (shr_m mrs) (loc_of_shr_record mrs)) in *.
  destruct m2 as [|p2|p2] eqn:Hm2; try lia.
  unfold shr_fexp. cbn [Zdigits2 shr_record_of_loc].
  destruct (Z_lt_le_dec (Z.pos p2) (2 ^ 53)) as [Hlt|Hge].
  - rewrite (digits2_pos_eq p2 53) by lia.
    assert (Hf2 : fexp prec emax (53 + (0 + Z.pos k)) - (0 + Z.pos k) = 0).
    { unfold fexp, emin, prec, emax. lia. }
    rewrite Hf2. cbn [shr shr_m].
    destruct (0 + Z.pos k <=? emax - prec) eqn:Hle; [|reflexivity].
    apply Z.leb_le in Hle. unfold emax, prec in Hle. lia.
  - rewrite (digits2_pos_eq p2 54) by lia.
    assert (Hf2 : fexp prec emax (54 + (0 + Z.pos k)) - (0 + Z.pos k) = 1).
    { unfold fexp, emin, prec, emax. lia. }
    rewrite Hf2. cbn [shr SpecFloat.iter_pos].
    assert (Hhalf : shr_m (shr_1 (exact_rec (Z.pos p2))) = Z.pos p2 / 2)
      by (apply shr_1_m; cbn; lia).
    fold (exact_rec (Z.pos p2)).
    destruct (shr_m (shr_1 (exact_rec (Z.pos p2)))) as [|p3|p3] eqn:Hp3.
    + assert (2 ^ 52 <= Z.pos p2 / 2) by (apply Z.div_le_lower_bound; lia). lia.
    + destruct (0 + Z.pos k + 1 <=? emax - prec) eqn:Hle; [|reflexivity].
      apply Z.leb_le in Hle. unfold emax, prec in Hle. lia.
    + assert (2 ^ 52 <= Z.pos p2 / 2) by (apply Z.div_le_lower_bound; lia). lia.
Qed.

(** X4. An [int] of magnitude 2^1024 or more together with a [float]:
    [multiply] raises [OverflowError], whatever the float, zero and NaN
    included, in either order of the arguments. *)
Theorem multiply_huge_int_overflows (n : Z) (y : spec_float) :
  2 ^ 1024 <= Z.abs n ->
  multiply (PyInt n) (PyFloat y) = inl OverflowError /\
  multiply (PyFloat y) (PyInt n) = inl OverflowError.
Proof.
  intros Hn.
  assert (H : float_of_int n = inl OverflowError).
  { unfold float_of_int, binary_normalize. destruct n as [|m|m].
    - cbn in Hn. lia.
    - rewrite binary_round_huge by lia. reflexivity.
    - rewrite binary_round_huge by lia. reflexivity. }
  cbn [multiply py_mul]. rewrite H. done.
Qed.

Lemma bounded_intro (m : positive) (e : Z) :
  fexp prec emax (Z.pos (digits2_pos m) + e) = e -> e <= emax - prec ->
  bounded prec emax m e = true.
Proof.
  intros Hc He. unfold bounded, canonical_mantissa.
  apply andb_true_iff. split; [by apply Z.eqb_eq|by apply Z.leb_le].
Qed.

(** The last step of rounding: a mantissa already at its exponent. *)
Lemma finish_canonical (s : bool) (p : positive) (e : Z) :
  fexp prec emax (Z.pos (digits2_pos p) + e) = e ->
  valid_binary prec emax
    (let '(mrs, e') := shr_fexp prec emax (Z.pos p) e loc_Exact in
     match shr_m mrs with
     | 0 => S754_zero s
     | Z.pos m => if e' <=? emax - prec then S754_finite s m e' else S754_infinity s
     | Z.neg _ => S754_nan
     end) = true.
Proof.
  intros Hc. unfold shr_fexp. cbn [Zdigits2 shr_record_of_loc].
  rewrite Hc, Z.sub_diag. cbn [shr shr_m].
  destruct (e <=? emax - prec) eqn:He; [|reflexivity].
  apply Z.leb_le in He. by apply bounded_intro.
Qed.

Lemma div_pow2_bounds (m d n : Z) :
  2 ^ (d - 1) <= m < 2 ^ d -> 0 <= n < d ->
  2 ^ (d - n - 1) <= m / 2 ^ n < 2 ^ (d - n).
Proof.
  intros [Hlo Hhi] Hn.
  assert (Hp : 0 < 2 ^ n) by (apply Z.pow_pos_nonneg; lia).
  split.
  - apply Z.div_le_lower_bound; [lia|].
    rewrite <- Z.pow_add_r by lia. replace (n + (d - n - 1)) with (d - 1) by lia. lia.
  - apply Z.div_lt_upper_bound; [lia|].
    rewrite <- Z.pow_add_r by lia. replace (n + (d - n)) with d by lia. lia.
Qed.

Lemma binary_round_aux_valid (s : bool) (p : positive) (e : Z) :
  e <= fexp prec emax (Z.pos (digits2_pos p) + e) ->
  valid_binary prec emax (binary_round_aux prec emax s (Z.pos p) e loc_Exact) = true.
Proof.
  intros He. pose proof (digits2_pos_bounds p) as Hp.
  set (d := Z.pos (digits2_pos p)) in *.
  assert (Hd : 0 < d) by (unfold d; lia).
  unfold binary_round_aux. unfold shr_fexp at 1. cbn [Zdigits2 shr_record_of_loc].
  fold d. fold (exact_rec (Z.pos p)).
  destruct (fexp prec emax (d + e) - e) as [|n|n] eqn:Hn; [| |lia]; cbn [shr].
  - (* nothing to shift *)
    cbn [exact_rec shr_m loc_of_shr_record round_nearest_even].
    apply finish_canonical. fold d. lia.
  - set (mrs := SpecFloat.iter_pos shr_1 n (exact_rec (Z.pos p))).
    assert (Hm1 : shr_m mrs = Z.pos p / 2 ^ Z.pos n)
      by (apply (iter_shr_1_m n (exact_rec (Z.pos p))); cbn; lia).
    assert (Hpn : 0 < 2 ^ Z.pos n) by (apply Z.pow_pos_nonneg; lia).
    pose proof (round_nearest_even_bounds (shr_m mrs) (loc_of_shr_record mrs)) as Hr.
    set (m2 := round_nearest_even (shr_m mrs) (loc_of_shr_record mrs)) in *.
    assert (He1 : e + Z.pos n = fexp prec emax (d + e)) by lia.
    destruct (Z_lt_le_dec (Z.pos n) d) as [Hlt|Hge].
    + (* some digits are left *)
      pose proof (div_pow2_bounds (Z.pos p) d (Z.pos n) Hp ltac:(lia)) as Hb.
      rewrite <- Hm1 in Hb.
      assert (Hpd : 0 < 2 ^ (d - Z.pos n - 1)) by (apply Z.pow_pos_nonneg; lia).
      destruct m2 as [|p2|p2] eqn:Hm2; try lia.
      destruct (Z_lt_le_dec (Z.pos p2) (2 ^ (d - Z.pos n))) as [Hsame|Hcarry].
      * apply finish_canonical.
        rewrite (digits2_pos_eq p2 (d - Z.pos n)) by lia.
        replace (d - Z.pos n + (e + Z.pos n)) with (d + e) by lia. lia.
      * assert (Hp2 : Z.pos p2 = 2 ^ (d - Z.pos n)) by lia.
        assert (Hdig : Z.pos (digits2_pos p2) = d - Z.pos n + 1).
        { apply digits2_pos_eq; [|lia]. rewrite Hp2.
          replace (d - Z.pos n + 1 - 1) with (d - Z.pos n) by lia.
          rewrite (Z.pow_add_r 2 (d - Z.pos n) 1) by lia. lia. }
        destruct (Z_lt_le_dec (d + e - prec) (emin prec emax)) as [Hsub|Hnorm].
        -- apply finish_canonical. rewrite Hdig.
           unfold fexp, emin, prec, emax in *. lia.
        -- unfold shr_fexp. cbn [Zdigits2 shr_record_of_loc]. rewrite Hdig.
           assert (Hf2 : fexp prec emax (d - Z.pos n + 1 + (e + Z.pos n)) - (e + Z.pos n) = 1).
           { unfold fexp, emin, prec, emax in *. lia. }
           rewrite Hf2. cbn [shr SpecFloat.iter_pos]. fold (exact_rec (Z.pos p2)).
           assert (Hhalf : shr_m (shr_1 (exact_rec (Z.pos p2))) = 2 ^ (d - Z.pos n - 1)).
           { rewrite shr_1_m by (cbn; lia). cbn [exact_rec shr_m]. rewrite Hp2.
             replace (d - Z.pos n) with (1 + (d - Z.pos n - 1)) at 1 by lia.
             rewrite Z.pow_add_r, Z.pow_1_r by lia.
             rewrite Z.mul_comm, Z.div_mul by lia. reflexivity. }
           destruct (shr_m (shr_1 (exact_rec (Z.pos p2)))) as [|p3|p3] eqn:Hp3; try lia.
           destruct (e + Z.pos n + 1 <=? emax - prec) eqn:Hle; [|reflexivity].
           apply Z.leb_le in Hle. apply bounded_intro; [|lia].
           rewrite (digits2_pos_eq p3 (d - Z.pos n)); [|rewrite Hhalf|lia].
           ++ unfold fexp, emin, prec, emax in *. lia.
           ++ split; [lia|]. apply Z.pow_lt_mono_r; lia.
    + (* every digit is shifted out *)
      assert (Hzero : shr_m mrs = 0).
      { rewrite Hm1. apply Z.div_small. split; [lia|].
        assert (2 ^ d <= 2 ^ Z.pos n) by (apply Z.pow_le_mono_r; lia). lia. }
      assert (Hmin : e + Z.pos n = emin prec emax) by (unfold fexp, emin, prec, emax in *; lia).
      destruct m2 as [|p2|p2] eqn:Hm2; try lia.
      * unfold shr_fexp. cbn [Zdigits2 shr_record_of_loc].
        assert (Hf2 : fexp prec emax (0 + (e + Z.pos n)) - (e + Z.pos n) = 0).
        { unfold fexp, emin, prec, emax in *. lia. }
        rewrite Hf2. reflexivity.
      * assert (Hp2 : p2 = 1%positive) by lia. subst p2.
        apply finish_canonical. cbn [digits2_pos].
        unfold fexp, emin, prec, emax in *. lia.
Qed.

Lemma float_mul_valid (x y : spec_float) :
  is_binary64 x -> is_binary64 y -> is_binary64 (float_mul x y).
Proof.
  intros Hx Hy. destruct x as [sx|sx| |sx mx ex], y as [sy|sy| |sy my ey];
    try reflexivity.
  unfold is_binary64, float_mul. cbn [SFmul].
  apply binary_round_aux_valid. by apply product_exponent_bound.
Qed.

Lemma binary_round_valid (s : bool) (m : positive) :
  valid_binary prec emax (binary_round prec emax s m 0) = true.
Proof.
  unfold binary_round, shl_align.
  destruct (fexp prec emax (Z.pos (digits2_pos m) + 0) - 0) as [|k|k] eqn:Hk.
  - apply binary_round_aux_valid. lia.
  - apply binary_round_aux_valid. lia.
  - apply binary_round_aux_valid.
    rewrite (digits2_pos_shift m (Pos.iter xO m k) (Z.pos k)) by (lia || apply iter_xO_pow2).
    replace (Z.pos (digits2_pos m) + Z.pos k +
             fexp prec emax (Z.pos (digits2_pos m) + 0))
      with (Z.pos (digits2_pos m) + 0) by lia.
    lia.
Qed.

Lemma float_of_int_valid (n : Z) (x : spec_float) :
  float_of_int n = inr x -> is_binary64 x.
Proof.
  unfold float_of_int, binary_normalize, is_binary64. intros H.
  destruct n as [|m|m].
  - by injection H as <-.
  - pose proof (binary_round_valid false m) as Hv.
    destruct (binary_round prec emax false m 0); try discriminate; by injection H as <-.
  - pose proof (binary_round_valid true m) as Hv.
    destruct (binary_round prec emax true m 0); try discriminate; by injection H as <-.
Qed.

(** X2. What [multiply] returns is a Python number again: from [int]s
    and binary64 [float]s in canonical form it returns an [int] or a
    binary64 [float] in canonical form, so results can be multiplied on. *)
Theorem multiply_well_formed (a b c : pynum) :
  well_formed a -> well_formed b -> multiply a b = inr c -> well_formed c.
Proof.
  intros Ha Hb. destruct a as [m|x], b as [n|y]; cbn [multiply py_mul].
  - by intros [= <-].
  - destruct (float_of_int m) as [e|x] eqn:Hx; [discriminate|].
    intros [= <-]. apply float_mul_valid; [by apply (float_of_int_valid m)|exact Hb].
  - destruct (float_of_int n) as [e|y] eqn:Hy; [discriminate|].
    intros [= <-]. apply float_mul_valid; [exact Ha|by apply (float_of_int_valid n)].
  - intros [= <-]. by apply float_mul_valid.
Qed.

Lemma one_is_neutral_witness :
  well_formed (PyFloat tenth) /\ ~ is_a_nan (PyFloat tenth) /\
  multiply (PyFloat one) (PyFloat tenth) = inr (PyFloat tenth) /\
  multiply (PyFloat tenth) (PyFloat one) = inr (PyFloat tenth) /\
  multiply (PyInt 1) (PyFloat tenth) = inr (PyFloat tenth) /\
  multiply (PyFloat tenth) (PyInt 1) = inr (PyFloat tenth).
Proof.
  split; [reflexivity|]. split; [discriminate|].
  apply (one_is_neutral (PyFloat tenth)); [reflexivity|discriminate].
Defined.

Lemma multiply_well_formed_witness :
  well_formed (PyFloat tenth) /\ well_formed (PyFloat tenth) /\
  multiply (PyFloat tenth) (PyFloat tenth) =
    inr (PyFloat (S754_finite false 5764607523034236 (-59))) /\
  well_formed (PyFloat (S754_finite false 5764607523034236 (-59))).
Proof.
  split; [reflexivity|]. split; [reflexivity|]. split; [vm_compute; reflexivity|].
  apply (multiply_well_formed (PyFloat tenth) (PyFloat tenth)); [reflexivity..|].
  vm_compute. reflexivity.
Defined.

(** The notebook's question with an [int] and a [float]: 1234 * 4567.0. *)
Lemma multiply_small_int_exact_witness :
  let y := S754_finite false 5021469604052992 (-40) in
  let qy := (inject_Z 5021469604052992 * (2 # 1) ^ (-40))%Q in
  fits_double_exactly 1234 /\ is_binary64 y /\ SF2Q y = Some qy /\
  representable (inject_Z 1234 * qy) /\
  returns_exactly (multiply (PyInt 1234) (PyFloat y)) (inject_Z 1234 * qy) /\
  returns_exactly (multiply (PyFloat y) (PyInt 1234)) (qy * inject_Z 1234).
Proof.
  assert (Hfit : representable
            (inject_Z 1234 * (inject_Z 5021469604052992 * (2 # 1) ^ (-40)))).
  { exists (S754_finite false 6051263175196672 (-30)); eexists.
    split; [reflexivity|]. split; [reflexivity|]. vm_compute. reflexivity. }
  split; [vm_compute; reflexivity|]. split; [reflexivity|]. split; [reflexivity|].
  split; [exact Hfit|].
  apply multiply_small_int_exact;
    first [exact Hfit | reflexivity | vm_compute; reflexivity].
Defined.

Lemma multiply_huge_int_overflows_witness :
  2 ^ 1024 <= Z.abs (2 ^ 1024) /\
  multiply (PyInt (2 ^ 1024)) (PyFloat (S754_zero false)) = inl OverflowError /\
  multiply (PyFloat (S754_zero false)) (PyInt (2 ^ 1024)) = inl OverflowError.
Proof.
  split; [vm_compute; discriminate|].
  apply multiply_huge_int_overflows. vm_compute. discriminate.
Defined.

End MultiplyFacts.

(** ** What the notebooks do *)

Module NotebookFacts.
Import PyNum Notebooks.

Section Facts.
Context {exn toolspec tool llm agent_state response ext : Type}.
Context (str repr : response -> string).
Context (lib : @Library exn toolspec tool llm agent_state response ext).

Local Abbreviation world := (@world agent_state ext).
Local Abbreviation event := (@event exn toolspec tool llm agent_state response).
Local Abbreviation call := (@call toolspec tool llm response).
Local Abbreviation prog := (@prog exn toolspec tool llm response).
Local Abbreviation likeness := (@likeness llm agent_state ext).

(** *** The store of agent objects *)

Lemma lookup_snoc (l : list agent_state) (x : agent_state) :
  (l ++ [x]) !! length l = Some x.
Proof. by rewrite list_lookup_middle. Qed.

Lemma insert_snoc (l : list agent_state) (x y : agent_state) :
  <[length l := y]> (l ++ [x]) = l ++ [y].
Proof. rewrite insert_app_r_alt by lia. by rewrite Nat.sub_diag. Qed.

(** *** Facts about every program *)

Ltac lib_call :=
  match goal with
  | |- context [lib_OpenAI ?l ?x ?c ?m ?k] =>
      destruct (lib_OpenAI l x c m k) as [? [?|?]]
  | |- context [lib_ToolSpec ?l ?x ?k] =>
      destruct (lib_ToolSpec l x k) as [? [?|?]]
  | |- context [lib_to_tool_list ?l ?x ?k] =>
      destruct (lib_to_tool_list l x k) as [? [?|?]]
  | |- context [lib_from_tools ?l ?x ?c ?t ?m ?v] =>
      destruct (lib_from_tools l x c t m v) as [? [?|?]]
  | |- context [lib_FunctionAgent ?l ?x ?c ?t ?m ?v] =>
      destruct (lib_FunctionAgent l x c t m v) as [? [?|?]]
  | |- context [lib_chat ?l ?x ?c ?s ?m] =>
      destruct (lib_chat l x c s m) as [[? ?] [?|?]]
  | |- context [lib_run ?l ?x ?c ?s ?m] =>
      destruct (lib_run l x c s m) as [[? ?] [?|?]]
  end.

(** What a call returns and what its event records agree. *)
Lemma handle_raised {X : Type} (c : call X) (w w' : world) (ev : event) (r : exn + X) :
  handle lib c w = Some (w', ev, r) ->
  raised ev = match r with inl e => Some e | inr _ => None end.
Proof.
  destruct c; cbn; try (destruct (agents w !! a); [|discriminate]);
    repeat lib_call; cbn; intros H; injection H as <- <- <-; reflexivity.
Qed.

(** In code with no [try], an event that raised is the last one, and its
    exception is the outcome of the run. *)
Lemma run_raised {A : Type} (p : prog A) :
  handler_free p ->
  forall (w : world) (i : nat) (ev : event) (e : exn),
  (run lib p w).1.2 !! i = Some ev -> raised ev = Some e ->
  (run lib p w).2 = Raised e /\ S i = length (run lib p w).1.2.
Proof.
  induction 1 as [a|X c k _ IH]; intros w i ev e; cbn.
  - intros H. by rewrite lookup_nil in H.
  - destruct (handle lib c w) as [[[w' ev'] [e'|x]]|] eqn:Hh; cbn.
    + intros Hi Hev. destruct i as [|i]; [|by destruct i].
      injection Hi as ->. apply handle_raised in Hh. split; [congruence|done].
    + specialize (IH x w'). destruct (run lib (k x) w') as [[w'' t] o]. cbn in *.
      intros Hi Hev. destruct i as [|i].
      * injection Hi as ->. apply handle_raised in Hh. congruence.
      * destruct (IH i ev e Hi Hev) as [-> ->]. done.
    + intros H. by rewrite lookup_nil in H.
Qed.

(** No notebook has a [try]. *)
Lemma program_handler_free (nb : notebook) :
  handler_free (program str repr nb : prog unit).
Proof. destruct nb; repeat (cbn; constructor; intros). Qed.

(** A call leaves [.env] alone; only [print] writes to standard output
    and only a cell result is displayed. *)
Lemma handle_frame {X : Type} (c : call X) (w w' : world) (ev : event) (r : exn + X) :
  handle lib c w = Some (w', ev, r) ->
  dotenv_file w' = dotenv_file w /\
  stdout w' = stdout w ++ printed_texts [ev] /\
  displayed w' = displayed w ++ displayed_texts [ev].
Proof.
  destruct c; cbn; try (destruct (agents w !! a); [|discriminate]);
    repeat lib_call; cbn; intros H; injection H as <- <- <-; cbn;
    by rewrite ?app_nil_r.
Qed.

Lemma printed_texts_cons (ev : event) (t : list event) :
  printed_texts (ev :: t) = printed_texts [ev] ++ printed_texts t.
Proof. by destruct ev. Qed.

Lemma displayed_texts_cons (ev : event) (t : list event) :
  displayed_texts (ev :: t) = displayed_texts [ev] ++ displayed_texts t.
Proof. by destruct ev. Qed.

Lemma printed_texts_app (t1 t2 : list event) :
  printed_texts (t1 ++ t2) = printed_texts t1 ++ printed_texts t2.
Proof.
  induction t1 as [|ev t1 IH]; [done|]. cbn [app].
  by rewrite (printed_texts_cons ev (t1 ++ t2)), (printed_texts_cons ev t1), IH, app_assoc.
Qed.

Lemma displayed_texts_app (t1 t2 : list event) :
  displayed_texts (t1 ++ t2) = displayed_texts t1 ++ displayed_texts t2.
Proof.
  induction t1 as [|ev t1 IH]; [done|]. cbn [app].
  by rewrite (displayed_texts_cons ev (t1 ++ t2)), (displayed_texts_cons ev t1), IH,
    app_assoc.
Qed.

Lemma run_frame {A : Type} (p : prog A) : forall w : world,
  dotenv_file (run lib p w).1.1 = dotenv_file w /\
  stdout (run lib p w).1.1 = stdout w ++ printed_texts (run lib p w).1.2 /\
  displayed (run lib p w).1.1 = displayed w ++ displayed_texts (run lib p w).1.2.
Proof.
  induction p as [A a|A X c k IH|A B body IHb handler IHh k IHk]; intros w; cbn.
  - by rewrite !app_nil_r.
  - destruct (handle lib c w) as [[[w' ev'] [e'|x]]|] eqn:Hh;
      cbn -[printed_texts displayed_texts].
    + by apply handle_frame in Hh.
    + specialize (IH x w'). destruct (run lib (k x) w') as [[w'' t] o].
      cbn -[printed_texts displayed_texts] in *.
      apply handle_frame in Hh as (<- & Hout & Hdis). destruct IH as (-> & -> & ->).
      rewrite Hout, Hdis, (printed_texts_cons ev' t), (displayed_texts_cons ev' t).
      by rewrite !app_assoc.
    + by rewrite !app_nil_r.
  - specialize (IHb w). destruct (run lib body w) as [[w1 t1] [b|e|]]; cbn in IHb.
    + specialize (IHk b w1). destruct (run lib (k b) w1) as [[w2 t2] o2]. cbn in *.
      destruct IHb as (<- & Hout & Hdis), IHk as (-> & -> & ->).
      by rewrite Hout, Hdis, printed_texts_app, displayed_texts_app, !app_assoc.
    + specialize (IHh e w1). destruct (run lib (handler e) w1) as [[w2 t2] [b|e'|]];
        cbn in IHh.
      * specialize (IHk b w2). destruct (run lib (k b) w2) as [[w3 t3] o3]. cbn in *.
        destruct IHb as (<- & Hout & Hdis), IHh as (<- & Hout' & Hdis'),
                 IHk as (-> & -> & ->).
        by rewrite Hout', Hdis', Hout, Hdis, !printed_texts_app, !displayed_texts_app,
          !app_assoc.
      * cbn. destruct IHb as (<- & Hout & Hdis), IHh as (-> & -> & ->).
        by rewrite Hout, Hdis, printed_texts_app, displayed_texts_app, !app_assoc.
      * cbn. destruct IHb as (<- & Hout & Hdis), IHh as (-> & -> & ->).
        by rewrite Hout, Hdis, printed_texts_app, displayed_texts_app, !app_assoc.
    + done.
Qed.

(** *** Running a notebook call by call *)

(** Name the run of a notebook, then evaluate it one call at a time,
    with a case for each way a library call can return. *)
Ltac exec :=
  unfold trace_of, outcome_of, final;
  match goal with
  | |- context [run ?l ?p ?w] =>
      let H := fresh "Hrun" in
      destruct (run l p w) as [[? ?] ?] eqn:H; revert H
  end;
  repeat (cbn [run handle program function_agent_notebook code_interpreter_notebook
               duckduckgo_notebook arxiv_notebook mbind mret prog_bind prog_ret bind
               perform load_dotenv os_getenv set_openai_api_key OpenAI
               CodeInterpreterToolSpec DuckDuckGoSearchToolSpec ArxivToolSpec
               to_tool_list OpenAIAgent_from_tools FunctionAgent agent_chat agent_run
               print display allocate returned_agent
               set_environ set_api_key set_agents set_stdout set_displayed set_external
               environ dotenv_file openai_api_key agents stdout displayed external
               config_of];
          rewrite ?lookup_snoc, ?insert_snoc;
          try lib_call);
  let H := fresh "Hrun" in
  intros H; injection H as <- <- <-; cbn [fst snd].

Ltac phases_at n m :=
  match goal with
  | |- performs_in_order ?t =>
      exists (take n t), (take m (drop n t)); cbn [firstn skipn];
      eexists _, _; split; [reflexivity|]
  end.

(** *** The environment and [.env] *)

Lemma lookup_override (d env : gmap string string) (k v : string) :
  d !! k = Some v -> set_as_environment_variables true d env !! k = Some v.
Proof. intros H. cbn. by apply lookup_union_Some_l. Qed.

Lemma lookup_no_override (d env : gmap string string) (k v : string) :
  env !! k = Some v -> set_as_environment_variables false d env !! k = Some v.
Proof. intros H. cbn. by apply lookup_union_Some_l. Qed.

Lemma lookup_unset (o : bool) (d env : gmap string string) (k : string) :
  d !! k = None -> env !! k = None -> set_as_environment_variables o d env !! k = None.
Proof. intros Hd He. destruct o; cbn; by apply lookup_union_None. Qed.

(** *** Two runs that differ in the key only *)

Lemma same_key_shape_is_None (k1 k2 : option string) :
  same_key_shape k1 k2 -> k1 = None -> k2 = None.
Proof. unfold same_key_shape. intros H ->. by destruct k2. Qed.

Lemma environ_but_key_refl (e : gmap string string) : environ_but_key e e.
Proof. intros name. by destruct (decide _). Qed.

Lemma environ_but_key_sym (d1 d2 : gmap string string) :
  environ_but_key d1 d2 -> environ_but_key d2 d1.
Proof. intros H name. specialize (H name). by destruct (decide _). Qed.

Lemma environ_but_key_insert (d1 d2 : gmap string string) (b1 b2 : string * string) :
  environ_but_key d1 d2 -> binding_but_key b1 b2 ->
  environ_but_key (<[b1.1 := b1.2]> d1) (<[b2.1 := b2.2]> d2).
Proof.
  intros Hd [Hname Hval] name. specialize (Hd name). rewrite <- Hname.
  destruct (decide (name = b1.1)) as [->|Hne].
  - rewrite !lookup_insert_eq. destruct (decide _); [done|]. by rewrite Hval.
  - by rewrite !lookup_insert_ne.
Qed.

Lemma dotenv_values_but_key (f1 f2 : list (string * string)) :
  Forall2 binding_but_key f1 f2 ->
  environ_but_key (dotenv_values f1) (dotenv_values f2).
Proof.
  unfold dotenv_values. intros H.
  assert (Hgen : forall d1 d2, environ_but_key d1 d2 ->
            environ_but_key (foldl (fun d kv => <[kv.1 := kv.2]> d) d1 f1)
                            (foldl (fun d kv => <[kv.1 := kv.2]> d) d2 f2)).
  { induction H as [|b1 b2 f1 f2 Hb _ IH]; intros d1 d2 Hd; cbn; [done|].
    apply IH. by apply environ_but_key_insert. }
  apply Hgen, environ_but_key_refl.
Qed.

Lemma environ_but_key_union (a1 a2 b1 b2 : gmap string string) :
  environ_but_key a1 a2 -> environ_but_key b1 b2 ->
  environ_but_key (a1 ∪ b1) (a2 ∪ b2).
Proof.
  intros Ha Hb name. specialize (Ha name). specialize (Hb name).
  rewrite !lookup_union. destruct (decide _).
  - unfold same_key_shape in *.
    destruct (a1 !! name), (a2 !! name), (b1 !! name), (b2 !! name); done.
  - by rewrite Ha, Hb.
Qed.

Lemma environ_but_key_empty (d1 d2 : gmap string string) :
  environ_but_key d1 d2 -> d1 = ∅ -> d2 = ∅.
Proof.
  intros H ->. apply map_empty. intros name. specialize (H name).
  rewrite lookup_empty in H. destruct (decide _); [|done].
  by apply (same_key_shape_is_None None).
Qed.

Lemma found_but_key (d1 d2 : gmap string string) :
  environ_but_key d1 d2 ->
  negb (bool_decide (d1 = ∅)) = negb (bool_decide (d2 = ∅)).
Proof.
  intros H. f_equal. apply bool_decide_ext. split.
  - by apply environ_but_key_empty.
  - by apply environ_but_key_empty, environ_but_key_sym.
Qed.

Lemma load_but_key (R : likeness) (o : bool) (w1 w2 : world) :
  worlds_alike R w1 w2 ->
  environ_but_key
    (set_as_environment_variables o (dotenv_values (dotenv_file w1)) (environ w1))
    (set_as_environment_variables o (dotenv_values (dotenv_file w2)) (environ w2)).
Proof.
  intros (He & Hf & _). apply dotenv_values_but_key in Hf.
  destruct o; cbn; by apply environ_but_key_union.
Qed.

(** One call, made in two worlds that are alike, against a library that
    treats one key like another. *)
Lemma handle_alike (R : likeness) {X : Type} (c1 c2 : call X) (w1 w2 : world) :
  treats_keys_alike lib R -> calls_alike R X c1 c2 -> worlds_alike R w1 w2 ->
  handled_alike R c1 (handle lib c1 w1) (handle lib c2 w2).
Proof.
  intros (HOpenAI & Hspec & Hlist & Hfrom & Hfun & Hchat & Hrun) Hc Hw.
  pose proof Hw as (He & Hf & Hk & Ha & Hs & Hd & Hx).
  assert (Hcfg : config_but_key (config_of w1) (config_of w2)) by (by split).
  destruct Hc as [o|name|k1 k2 Hkk|model k1 k2 Hkk|k|s|tools l1 l2 v Hl
                 |tools l1 l2 p Hl|a msg|a msg|s|s]; cbn.
  - pose proof (found_but_key _ _ (dotenv_values_but_key _ _ Hf)) as Hfound.
    repeat split; cbn; try done; by apply (load_but_key R).
  - pose proof (He name) as Hn. unfold events_alike.
    split; [exact Hw|]. split; [split; [done|exact Hn]|].
    cbn. by destruct (decide (name = OPENAI_API_KEY)).
  - repeat split; done.
  - destruct (HOpenAI _ _ _ _ model k1 k2 Hx Hcfg Hkk) as [Hy Hr].
    destruct (lib_OpenAI lib (external w1) _ _ _) as [y1 r1],
             (lib_OpenAI lib (external w2) _ _ _) as [y2 r2].
    cbn in Hy, Hr. repeat split; cbn; try done; by destruct r1, r2.
  - destruct (Hspec _ _ k Hx) as [Hy Hr].
    destruct (lib_ToolSpec lib (external w1) _) as [y1 r1],
             (lib_ToolSpec lib (external w2) _) as [y2 r2].
    cbn in Hy, Hr. subst r2. repeat split; cbn; try done; by destruct r1.
  - destruct (Hlist _ _ s Hx) as [Hy Hr].
    destruct (lib_to_tool_list lib (external w1) _) as [y1 r1],
             (lib_to_tool_list lib (external w2) _) as [y2 r2].
    cbn in Hy, Hr. subst r2. repeat split; cbn; try done; by destruct r1.
  - destruct (Hfrom _ _ _ _ tools l1 l2 v Hx Hcfg Hl) as [Hy Hr].
    destruct (lib_from_tools lib (external w1) _ _ _ _) as [y1 r1],
             (lib_from_tools lib (external w2) _ _ _ _) as [y2 r2].
    cbn in Hy, Hr. pose proof (Forall2_length _ _ _ Ha) as Hlen.
    destruct r1 as [e1|st1], r2 as [e2|st2]; cbn in Hr; try done; cbn.
    repeat split; cbn; try done; apply Forall2_app; [done|by constructor].
  - destruct (Hfun _ _ _ _ tools l1 l2 p Hx Hcfg Hl) as [Hy Hr].
    destruct (lib_FunctionAgent lib (external w1) _ _ _ _) as [y1 r1],
             (lib_FunctionAgent lib (external w2) _ _ _ _) as [y2 r2].
    cbn in Hy, Hr. pose proof (Forall2_length _ _ _ Ha) as Hlen.
    destruct r1 as [e1|st1], r2 as [e2|st2]; cbn in Hr; try done; cbn.
    repeat split; cbn; try done; apply Forall2_app; [done|by constructor].
  - destruct (agents w1 !! a) as [st1|] eqn:H1, (agents w2 !! a) as [st2|] eqn:H2;
      unfold agent in H1, H2; cbn;
      [|exfalso; destruct (Forall2_lookup_l _ _ _ _ _ Ha H1) as (? & ? & _); congruence
       |exfalso; destruct (Forall2_lookup_r _ _ _ _ _ Ha H2) as (? & ? & _); congruence
       |done].
    pose proof (Forall2_lookup_lr _ _ _ _ _ _ Ha H1 H2) as Hst'.
    destruct (Hchat _ _ _ _ st1 st2 msg Hx Hcfg Hst') as (Hy & Hz & Hr).
    destruct (lib_chat lib (external w1) _ _ _) as [[y1 z1] r1],
             (lib_chat lib (external w2) _ _ _) as [[y2 z2] r2].
    cbn in Hy, Hz, Hr. subst r2.
    repeat split; cbn; try done; first [by apply Forall2_insert | by destruct r1].
  - destruct (agents w1 !! a) as [st1|] eqn:H1, (agents w2 !! a) as [st2|] eqn:H2;
      unfold agent in H1, H2; cbn;
      [|exfalso; destruct (Forall2_lookup_l _ _ _ _ _ Ha H1) as (? & ? & _); congruence
       |exfalso; destruct (Forall2_lookup_r _ _ _ _ _ Ha H2) as (? & ? & _); congruence
       |done].
    pose proof (Forall2_lookup_lr _ _ _ _ _ _ Ha H1 H2) as Hst'.
    destruct (Hrun _ _ _ _ st1 st2 msg Hx Hcfg Hst') as (Hy & Hz & Hr).
    destruct (lib_run lib (external w1) _ _ _) as [[y1 z1] r1],
             (lib_run lib (external w2) _ _ _) as [[y2 z2] r2].
    cbn in Hy, Hz, Hr. subst r2.
    repeat split; cbn; try done; first [by apply Forall2_insert | by destruct r1].
  - repeat split; cbn; try done; by rewrite Hs.
  - repeat split; cbn; try done; by rewrite Hd.
Qed.

Lemma run_alike (R : likeness) {A : Type} (p1 p2 : prog A) :
  treats_keys_alike lib R -> same_control_flow R p1 p2 ->
  forall w1 w2 : world, worlds_alike R w1 w2 ->
  worlds_alike R (run lib p1 w1).1.1 (run lib p2 w2).1.1 /\
  Forall2 (events_alike R) (run lib p1 w1).1.2 (run lib p2 w2).1.2 /\
  (run lib p1 w1).2 = (run lib p2 w2).2.
Proof.
  intros Hlib.
  induction 1 as [a|X c1 c2 k1 k2 Hc Hk IH]; intros w1 w2 Hw; cbn.
  { split; [done|]. split; [constructor|done]. }
  pose proof (handle_alike R c1 c2 w1 w2 Hlib Hc Hw) as Hh.
  destruct (handle lib c1 w1) as [[[w1' ev1] r1]|],
           (handle lib c2 w2) as [[[w2' ev2] r2]|]; cbn in Hh; try done.
  destruct Hh as (Hw' & Hev & Hr).
  destruct r1 as [e1|x1], r2 as [e2|x2]; cbn in Hr; try done.
  - subst. cbn. split; [done|]. split; [by repeat constructor|done].
  - specialize (IH x1 x2 Hr w1' w2' Hw').
    destruct (run lib (k1 x1) w1') as [[? ?] ?], (run lib (k2 x2) w2') as [[? ?] ?].
    cbn in *. destruct IH as (? & ? & ->). split; [done|]. split; [by constructor|done].
Qed.

(** Whatever key a notebook reads, it makes the same calls. *)
Lemma program_same_control_flow (R : likeness) (nb : notebook) :
  same_control_flow R (program str repr nb : prog unit) (program str repr nb).
Proof.
  destruct nb; cbn.
  all: repeat first
    [ apply scf_ret
    | apply scf_vis;
      [ constructor; first [assumption | constructor; assumption | constructor]
      | let x1 := fresh "x" in let x2 := fresh "x" in let H := fresh "H" in
        intros x1 x2 H; cbn in H; try subst x2 ] ].
Qed.

(** The key is read once, from the environment as [load_dotenv] left it,
    and the very next call takes it; the DuckDuckGo notebook reads none. *)
Lemma program_forwards_key (nb : notebook) (w : world) :
  keys_read (trace_of str repr lib nb w) =
    match nb with
    | DuckDuckGoNb => []
    | _ => [environ (final str repr lib nb w) !! OPENAI_API_KEY]
    end /\
  key_forwarded (trace_of str repr lib nb w).
Proof. destruct nb; exec; cbn; auto. Qed.

(** No run meets a reference the store does not hold. *)
Lemma run_never_dangles (nb : notebook) (w : world) :
  outcome_of str repr lib nb w <> Dangling.
Proof. destruct nb; exec; discriminate. Qed.

(** *** The claims *)

(** C2. No notebook has a [try] around anything it does: when a call
    into a library raises, that call is the last thing the notebook does
    (no retry, no recovery) and the run ends with that very exception (no
    translation). *)
Theorem exception_ends_the_run (nb : notebook) (w : world) (i : nat)
    (ev : event) (e : exn) :
  trace_of str repr lib nb w !! i = Some ev -> raised ev = Some e ->
  handler_free (program str repr nb : prog unit) /\
  outcome_of str repr lib nb w = Raised e /\
  S i = length (trace_of str repr lib nb w).
Proof.
  intros Hi Hev. split; [apply program_handler_free|].
  revert Hi Hev. apply run_raised, program_handler_free.
Qed.

(** C3 (amended). A notebook that runs to its end has loaded the
    credentials, then instantiated one tool specification (the
    function-agent notebook: none, it has its one local function), then
    constructed one agent given the tools of that specification, however
    many, and the model, where the code makes one, and then taken at least
    one turn, each a call into the agent followed by what shows the
    response; every response was printed, except the one to the last
    utterance of the code-interpreter notebook, which is left as the value
    of the cell. *)
Theorem steps_in_order (nb : notebook) (w : world) :
  outcome_of str repr lib nb w = Done tt ->
  performs_in_order (trace_of str repr lib nb w) /\
  responses_printed_or_shown str repr (trace_of str repr lib nb w).
Proof.
  destruct nb; exec; intros Hdone; try discriminate Hdone;
    (split; [|cbn; repeat split; done]).
  - phases_at constr:(2%nat) constr:(1%nat). cbn.
    repeat split; eauto 10; try (repeat constructor); done.
  - phases_at constr:(3%nat) constr:(2%nat). cbn.
    repeat split; eauto 10; try (repeat constructor); done.
  - phases_at constr:(2%nat) constr:(2%nat). cbn.
    repeat split; eauto 10; try (repeat constructor); done.
  - phases_at constr:(3%nat) constr:(3%nat). cbn.
    repeat split; eauto 10; try (repeat constructor); done.
Qed.


(** C5. With the key set nowhere, every notebook hands over [None] where
    it hands over a key and goes on: if no library call raises, the run
    reaches its end and the agent has been constructed. The function-agent
    notebook calls [OpenAI(model="gpt-4o-mini", api_key=None)]. *)
Theorem missing_key_not_checked (nb : notebook) (w : world) :
  key_unset w ->
  Forall hands_no_key (trace_of str repr lib nb w) /\
  (Forall (fun ev => raised ev = None) (trace_of str repr lib nb w) ->
   outcome_of str repr lib nb w = Done tt /\
   Exists is_construction (trace_of str repr lib nb w)) /\
  (nb = FunctionAgentNb ->
   exists r, trace_of str repr lib nb w !! 2%nat = Some (EvOpenAI "gpt-4o-mini" None r)).
Proof.
  intros [Henv Hfile].
  pose proof (lookup_unset true _ _ _ Hfile Henv) as Hkey.
  pose proof (lookup_unset false _ _ _ Hfile Henv) as Hkey'.
  unfold set_as_environment_variables in Hkey, Hkey'.
  split; [|split].
  - destruct nb; exec; rewrite ?Hkey, ?Hkey'; repeat constructor.
  - destruct nb; exec; intros Hquiet;
      repeat (let Hev := fresh "Hev" in
              apply Forall_cons_1 in Hquiet as [Hev Hquiet];
              try discriminate Hev; clear Hev).
    all: split; [reflexivity|]; rewrite !Exists_cons; cbn; tauto.
  - intros ->. exec; rewrite ?Hkey; cbn; eauto.
Qed.

(** C6 (amended). Each utterance of a notebook is sent to the agent by
    one call, in source order, and never again, also when a call raises;
    the response is printed, except the one to the last utterance of the
    code-interpreter notebook, which is left as the value of the cell. *)
Theorem one_call_per_utterance (nb : notebook) (w : world) :
  NoDup (spoken nb) /\
  utterances (trace_of str repr lib nb w) `prefix_of` spoken nb /\
  (utterances (trace_of str repr lib nb w) = spoken nb \/
   exists e, outcome_of str repr lib nb w = Raised e) /\
  responses_printed_or_shown str repr (trace_of str repr lib nb w).
Proof.
  split; [destruct nb; compute_done|].
  destruct nb; exec; cbn.
  all: repeat split; eauto; try (eexists; cbn; reflexivity).
Qed.


(** C9. Where the notebook calls [load_dotenv(override=True)] (function
    agent, code interpreter, arXiv), the key it then reads is the one of
    [.env] whenever [.env] defines one, whatever the environment held; in
    the DuckDuckGo notebook, which calls [load_dotenv()], a key already in
    the environment stays. *)
Theorem dotenv_precedence (w : world) :
  (forall nb v, nb <> DuckDuckGoNb ->
     dotenv_values (dotenv_file w) !! OPENAI_API_KEY = Some v ->
     keys_read (trace_of str repr lib nb w) = [Some v]) /\
  (forall v, environ w !! OPENAI_API_KEY = Some v ->
     environ (final str repr lib DuckDuckGoNb w) !! OPENAI_API_KEY = Some v).
Proof.
  split.
  - intros nb v Hnb Hfile.
    pose proof (lookup_override _ (environ w) _ _ Hfile) as Hkey.
    unfold set_as_environment_variables in Hkey.
    destruct nb; [| |done|]; exec; cbn; rewrite Hkey; reflexivity.
  - intros v Henv.
    pose proof (lookup_no_override (dotenv_values (dotenv_file w)) _ _ _ Henv) as Hkey.
    unfold set_as_environment_variables in Hkey.
    exec; exact Hkey.
Qed.

(** C10. A notebook constructs its agent once: never twice, and exactly
    once unless a library call before the construction raised, in which
    case no turn is taken. Every turn is on that object and starts from
    the state the turn before it (or the construction) left. A run that
    reaches its end has constructed the agent exactly once and sent it
    every utterance of the notebook. *)
Theorem one_agent_threaded (nb : notebook) (w : world) :
  threaded None (trace_of str repr lib nb w) /\
  (constructions (trace_of str repr lib nb w) <= 1)%nat /\
  (constructions (trace_of str repr lib nb w) = 1%nat \/
   exists e, outcome_of str repr lib nb w = Raised e /\
             utterances (trace_of str repr lib nb w) = []) /\
  (outcome_of str repr lib nb w = Done tt ->
   constructions (trace_of str repr lib nb w) = 1%nat /\
   utterances (trace_of str repr lib nb w) = spoken nb).
Proof.
  destruct nb; exec; cbn.
  all: split; [auto 10|]; split; [lia|]; split; [eauto|].
  all: intros Hdone; first [discriminate Hdone | done].
Qed.

(** *** More about the notebooks *)

(** X5. What a run writes to standard output is the [str] of the
    responses its turns returned, in order and nothing else, also when a
    later call raises; in the code-interpreter notebook these are the first
    six responses and the seventh is the one cell result it shows. *)
Theorem output_is_the_responses (nb : notebook) (w : world) :
  stdout (final str repr lib nb w) =
    stdout w ++ map str (printed_responses nb (responses (trace_of str repr lib nb w))) /\
  match nb with
  | CodeInterpreterNb =>
      displayed (final str repr lib nb w) =
        displayed w ++
        map repr (cell_value_responses nb (responses (trace_of str repr lib nb w)))
  | _ => True
  end.
Proof.
  pose proof (run_frame (program str repr nb) w) as (_ & Hout & Hdis).
  fold (final str repr lib nb w) in Hout, Hdis.
  fold (trace_of str repr lib nb w) in Hout, Hdis.
  rewrite Hout. destruct nb; try rewrite Hdis; clear Hout Hdis; exec; cbn; done.
Qed.

(** X6. Which key a notebook ends up with. With [override=True] the key
    read by [os.getenv] is the one of [.env] if [.env] defines one, else the
    one the environment had, else [None]; the DuckDuckGo notebook reads no
    key and leaves in the environment the one it had, else the one of
    [.env]. *)
Theorem key_resolution (nb : notebook) (w : world) :
  match nb with
  | DuckDuckGoNb =>
      keys_read (trace_of str repr lib nb w) = [] /\
      environ (final str repr lib nb w) !! OPENAI_API_KEY = environ_then_file w
  | _ =>
      keys_read (trace_of str repr lib nb w) = [file_then_environ w] /\
      environ (final str repr lib nb w) !! OPENAI_API_KEY = file_then_environ w
  end.
Proof.
  assert (Ho : (dotenv_values (dotenv_file w) ∪ environ w) !! OPENAI_API_KEY =
               file_then_environ w).
  { unfold file_then_environ. rewrite lookup_union.
    by destruct (dotenv_values (dotenv_file w) !! OPENAI_API_KEY),
                (environ w !! OPENAI_API_KEY). }
  assert (Hn : (environ w ∪ dotenv_values (dotenv_file w)) !! OPENAI_API_KEY =
               environ_then_file w).
  { unfold environ_then_file. rewrite lookup_union.
    by destruct (dotenv_values (dotenv_file w) !! OPENAI_API_KEY),
                (environ w !! OPENAI_API_KEY). }
  destruct nb; exec; cbn; rewrite ?Ho, ?Hn; done.
Qed.

(** X7. Only the code-interpreter and arXiv notebooks assign
    [openai.api_key], and what they leave there is the key read; the
    function-agent and DuckDuckGo notebooks leave the attribute as it was. *)
Theorem api_key_attribute (nb : notebook) (w : world) :
  openai_api_key (final str repr lib nb w) =
    match nb with
    | CodeInterpreterNb | ArxivNb => file_then_environ w
    | FunctionAgentNb | DuckDuckGoNb => openai_api_key w
    end.
Proof.
  assert (Ho : (dotenv_values (dotenv_file w) ∪ environ w) !! OPENAI_API_KEY =
               file_then_environ w).
  { unfold file_then_environ. rewrite lookup_union.
    by destruct (dotenv_values (dotenv_file w) !! OPENAI_API_KEY),
                (environ w !! OPENAI_API_KEY). }
  destruct nb; exec; cbn; rewrite ?Ho; done.
Qed.

(** X8. A run changes [os.environ] through [load_dotenv] only: a name
    that [.env] does not bind keeps its value, no name is unset, and every
    name [.env] binds is set afterwards. *)
Theorem environ_only_gains (nb : notebook) (w : world) (name : string) :
  (dotenv_values (dotenv_file w) !! name = None ->
   environ (final str repr lib nb w) !! name = environ w !! name) /\
  (is_Some (environ w !! name) -> is_Some (environ (final str repr lib nb w) !! name)) /\
  (is_Some (dotenv_values (dotenv_file w) !! name) ->
   is_Some (environ (final str repr lib nb w) !! name)).
Proof.
  assert (H : forall o,
    let env' := set_as_environment_variables o (dotenv_values (dotenv_file w)) (environ w) in
    (dotenv_values (dotenv_file w) !! name = None -> env' !! name = environ w !! name) /\
    (is_Some (environ w !! name) -> is_Some (env' !! name)) /\
    (is_Some (dotenv_values (dotenv_file w) !! name) -> is_Some (env' !! name))).
  { intros o env'. subst env'. unfold set_as_environment_variables.
    destruct o; rewrite lookup_union;
      destruct (dotenv_values (dotenv_file w) !! name), (environ w !! name);
      repeat split; intros; try done; by eexists. }
  pose proof (H true) as Ht. pose proof (H false) as Hf.
  unfold set_as_environment_variables in Ht, Hf. cbn zeta in Ht, Hf.
  destruct nb; exec; first [exact Ht | exact Hf].
Qed.

(** X9. A run leaves the agent objects that existed untouched and adds
    at most one: the agent it constructed, in the state its last turn (or
    its construction) left. *)
Theorem store_gains_one_agent (nb : notebook) (w : world) :
  agents (final str repr lib nb w) =
    agents w ++ option_list (last_state None (trace_of str repr lib nb w)).
Proof. destruct nb; exec; cbn; by rewrite ?app_nil_r. Qed.

(** As [exec], with the worlds the calls are made in. *)
Ltac exec_worlds :=
  unfold worlds_of, trace_of;
  match goal with
  | |- context [run ?l ?p ?w] =>
      let H := fresh "Hrun" in
      destruct (run l p w) as [[? ?] ?] eqn:H; revert H
  end;
  repeat (cbn [run run_worlds handle program function_agent_notebook
               code_interpreter_notebook duckduckgo_notebook arxiv_notebook mbind mret
               prog_bind prog_ret bind perform load_dotenv os_getenv set_openai_api_key
               OpenAI CodeInterpreterToolSpec DuckDuckGoSearchToolSpec ArxivToolSpec
               to_tool_list OpenAIAgent_from_tools FunctionAgent agent_chat agent_run
               print display allocate returned_agent
               set_environ set_api_key set_agents set_stdout set_displayed set_external
               environ dotenv_file openai_api_key agents stdout displayed external
               config_of];
          rewrite ?lookup_snoc, ?insert_snoc;
          try lib_call);
  let H := fresh "Hrun" in
  intros H; injection H as <- <- <-; cbn [fst snd].

Lemma run_worlds_length {A : Type} (p : prog A) : forall w : world,
  length (run_worlds lib p w) = length (run lib p w).1.2.
Proof.
  induction p as [A a|A X c k IH|A B body IHb handler IHh k IHk]; intros w; cbn; [done| |].
  - destruct (handle lib c w) as [[[w' ev] [e|x]]|]; cbn; try done.
    specialize (IH x w'). destruct (run lib (k x) w') as [[? ?] ?]. cbn in *. by rewrite IH.
  - rewrite length_app, IHb. destruct (run lib body w) as [[w1 t1] [b|e|]]; cbn.
    + specialize (IHk b w1). destruct (run lib (k b) w1) as [[w2 t2] o2]. cbn in *.
      by rewrite length_app, IHk.
    + rewrite length_app, IHh. destruct (run lib (handler e) w1) as [[w2 t2] [b|e'|]]; cbn.
      * specialize (IHk b w2). destruct (run lib (k b) w2) as [[w3 t3] o3]. cbn in *.
        rewrite !length_app, IHk. lia.
      * rewrite length_app. cbn. lia.
      * rewrite length_app. cbn. lia.
    + lia.
Qed.

(** X10. When the environment or [.env] defines a key, every call into
    the libraries is made with a key in [os.environ]: [load_dotenv] has run
    before the first of them, in all four notebooks. *)
Theorem key_in_environ_at_library_calls (nb : notebook) (w : world) :
  key_available w ->
  Forall2 (fun w' ev => is_library_call ev -> is_Some (environ w' !! OPENAI_API_KEY))
          (worlds_of str repr lib nb w) (trace_of str repr lib nb w).
Proof.
  intros Hkey.
  assert (H : forall o, is_Some (set_as_environment_variables o
                (dotenv_values (dotenv_file w)) (environ w) !! OPENAI_API_KEY)).
  { intros o. unfold set_as_environment_variables.
    destruct o; rewrite lookup_union; destruct Hkey as [[v Hv]|[v Hv]]; rewrite Hv;
      try destruct (dotenv_values (dotenv_file w) !! OPENAI_API_KEY);
      try destruct (environ w !! OPENAI_API_KEY); cbn; eexists; reflexivity. }
  pose proof (H true) as Ht. pose proof (H false) as Hf.
  unfold set_as_environment_variables in Ht, Hf. clear H.
  destruct nb; exec_worlds;
    repeat first
      [ apply List.Forall2_nil
      | apply List.Forall2_cons;
        [cbn; intros Hlib; first [contradiction | assumption]|] ].
Qed.

End Facts.

(** *** The notebooks run *)

(** The key-keeping library treats one key like another. *)
Lemma has_key_shape (c1 c2 : config) (k1 k2 : option string) :
  config_but_key c1 c2 -> same_key_shape k1 k2 -> has_key c1 k1 = has_key c2 k2.
Proof.
  destruct c1 as [e1 a1], c2 as [e2 a2]. intros [He Ha] Hk. cbn in *.
  specialize (He OPENAI_API_KEY). rewrite decide_True in He by done.
  unfold has_key, same_key_shape in *. cbn.
  destruct k1, k2, a1, a2, (e1 !! OPENAI_API_KEY), (e2 !! OPENAI_API_KEY); done.
Qed.

Lemma resolve_key_shape (c1 c2 : config) (k1 k2 : option string) :
  config_but_key c1 c2 -> same_key_shape k1 k2 ->
  same_key_shape (resolve_key c1 k1) (resolve_key c2 k2).
Proof.
  destruct c1 as [e1 a1], c2 as [e2 a2]. intros [He Ha] Hk. cbn in *.
  specialize (He OPENAI_API_KEY). rewrite decide_True in He by done.
  unfold resolve_key, same_key_shape in *. cbn.
  destruct k1, k2, a1, a2; done.
Qed.

Lemma keeping_lib_treats_keys_alike : treats_keys_alike keeping_lib keeping_likeness.
Proof.
  unfold treats_keys_alike.
  cbn [keeping_lib lib_OpenAI lib_ToolSpec lib_to_tool_list lib_from_tools
       lib_FunctionAgent lib_chat lib_run keeping_likeness like_ext like_llm like_state
       keeping_turn fst snd].
  repeat apply conj.
  - intros x1 x2 c1 c2 model k1 k2 Hx Hc Hk. split; [exact Hx|].
    rewrite (has_key_shape c1 c2 k1 k2 Hc Hk).
    destruct (has_key c2 k2); cbn; [|done]. split; [done|by apply resolve_key_shape].
  - done.
  - done.
  - intros x1 x2 c1 c2 tools l1 l2 v Hx Hc Hl. split; [exact Hx|].
    destruct Hl as [[m1 k1] [m2 k2] [_ Hk]|]; cbn; [done|].
    rewrite (has_key_shape c1 c2 None None Hc eq_refl).
    destruct (has_key c2 None); cbn; [|done]. split; [|done].
    by apply (resolve_key_shape c1 c2 None None).
  - intros x1 x2 c1 c2 tools [m1 k1] [m2 k2] p Hx Hc [_ Hk]. done.
  - intros x1 x2 c1 c2 [k1 h1] [k2 h2] msg Hx Hc [Hk ->]. cbn.
    split; [|done]. apply Forall2_app; [done|]. by repeat constructor.
  - intros x1 x2 c1 c2 [k1 h1] [k2 h2] msg Hx Hc [Hk ->]. cbn.
    split; [|done]. apply Forall2_app; [done|]. by repeat constructor.
Qed.

Lemma kept_worlds_alike (e1 f1 e2 f2 : string) :
  worlds_alike keeping_likeness (kept_world e1 f1) (kept_world e2 f2).
Proof.
  unfold worlds_alike, kept_world.
  cbn [environ dotenv_file openai_api_key agents stdout displayed external].
  split; [|repeat split; repeat constructor; done].
  intros name. destruct (decide (name = OPENAI_API_KEY)) as [->|Hne].
  - by rewrite !lookup_singleton_eq.
  - by rewrite !lookup_singleton_ne.
Qed.

Lemma exception_ends_the_run_witness :
  let t := trace_of echo_str echo_repr strict_lib DuckDuckGoNb bare_world in
  let ev := EvFromTools ["tool"] None false (inl no_key) in
  t !! 4%nat = Some ev /\ raised ev = Some no_key /\
  handler_free (program echo_str echo_repr DuckDuckGoNb
                  : @prog string toolkind string string string unit) /\
  outcome_of echo_str echo_repr strict_lib DuckDuckGoNb bare_world = Raised no_key /\
  5%nat = length t.
Proof.
  split; [vm_compute; reflexivity|]. split; [reflexivity|].
  apply (exception_ends_the_run echo_str echo_repr strict_lib DuckDuckGoNb bare_world
           4 (EvFromTools ["tool"] None false (inl no_key)) no_key);
    vm_compute; reflexivity.
Defined.

Lemma steps_in_order_witness :
  let w := kept_world "sk-env" "sk-file" in
  let t := trace_of echo_str echo_repr keeping_lib DuckDuckGoNb w in
  outcome_of echo_str echo_repr keeping_lib DuckDuckGoNb w = Done tt /\
  performs_in_order t /\ responses_printed_or_shown echo_str echo_repr t.
Proof.
  split; [vm_compute; reflexivity|].
  apply steps_in_order. vm_compute. reflexivity.
Defined.


(** In these two runs the library does take the key it is handed: each
    run sends its own key out with the turn. *)
Lemma keeping_lib_sends_the_key :
  external (final echo_str echo_repr keeping_lib FunctionAgentNb
              (kept_world "sk-env-1" "sk-file-1")) = [Some "sk-file-1"] /\
  external (final echo_str echo_repr keeping_lib FunctionAgentNb
              (kept_world "sk-env-2" "sk-file-2")) = [Some "sk-file-2"].
Proof. split; vm_compute; reflexivity. Qed.

Lemma missing_key_not_checked_witness :
  let t := trace_of echo_str echo_repr echo_lib FunctionAgentNb bare_world in
  key_unset bare_world /\
  Forall hands_no_key t /\
  (Forall (fun ev => raised ev = None) t ->
   outcome_of echo_str echo_repr echo_lib FunctionAgentNb bare_world = Done tt /\
   Exists is_construction t) /\
  (FunctionAgentNb = FunctionAgentNb ->
   exists r, t !! 2%nat = Some (EvOpenAI "gpt-4o-mini" None r)).
Proof.
  split; [split; vm_compute; reflexivity|].
  apply (missing_key_not_checked echo_str echo_repr echo_lib FunctionAgentNb bare_world).
  split; vm_compute; reflexivity.
Defined.

Lemma dotenv_precedence_witness :
  let w := keyed_world "sk-env" "sk-file" in
  dotenv_values (dotenv_file w) !! OPENAI_API_KEY = Some "sk-file" /\
  environ w !! OPENAI_API_KEY = Some "sk-env" /\
  keys_read (trace_of echo_str echo_repr echo_lib ArxivNb w) = [Some "sk-file"] /\
  environ (final echo_str echo_repr echo_lib DuckDuckGoNb w) !! OPENAI_API_KEY =
    Some "sk-env".
Proof.
  split; [vm_compute; reflexivity|]. split; [vm_compute; reflexivity|].
  destruct (dotenv_precedence echo_str echo_repr echo_lib
              (keyed_world "sk-env" "sk-file")) as [Hfile Henv].
  split.
  - apply Hfile; [discriminate|vm_compute; reflexivity].
  - apply Henv. vm_compute. reflexivity.
Defined.

(** With the strict library and no key the run does stop, inside the
    library: the client refuses to be built. *)
Lemma strict_library_refuses :
  outcome_of echo_str echo_repr strict_lib FunctionAgentNb bare_world = Raised no_key /\
  last (trace_of echo_str echo_repr strict_lib FunctionAgentNb bare_world) =
    Some (EvOpenAI "gpt-4o-mini" None (inl no_key)).
Proof. split; vm_compute; reflexivity. Qed.

(** C3 as worded fails twice over. The code-interpreter notebook runs to
    its end and its last response is not printed; and the DuckDuckGo
    specification yields two tools, so that agent is built from two. *)
Lemma not_one_tool_nor_all_printed :
  let w := kept_world "sk-env" "sk-file" in
  (outcome_of echo_str echo_repr keeping_lib CodeInterpreterNb w = Done tt /\
   ~ responses_printed echo_str
       (trace_of echo_str echo_repr keeping_lib CodeInterpreterNb w) /\
   ~ in_order_and_printed echo_str
       (trace_of echo_str echo_repr keeping_lib CodeInterpreterNb w)) /\
  (outcome_of echo_str echo_repr keeping_lib DuckDuckGoNb w = Done tt /\
   list_sum (map tools_given
     (trace_of echo_str echo_repr keeping_lib DuckDuckGoNb w)) = 2%nat /\
   ~ in_order_and_printed echo_str
       (trace_of echo_str echo_repr keeping_lib DuckDuckGoNb w)).
Proof.
  split.
  - split; [vm_compute; reflexivity|].
    assert (H : ~ responses_printed echo_str
                  (trace_of echo_str echo_repr keeping_lib CodeInterpreterNb
                     (kept_world "sk-env" "sk-file"))).
    { intros H. vm_compute in H. tauto. }
    split; [exact H|]. intros (_ & _ & H'). by apply H.
  - split; [vm_compute; reflexivity|]. split; [vm_compute; reflexivity|].
    intros (_ & H & _). vm_compute in H. discriminate H.
Qed.

(** C6 as worded fails: the response to the last utterance of the
    code-interpreter notebook is not printed. *)
Lemma code_interpreter_one_call_but_no_print :
  In last_utterance
    (utterances (trace_of echo_str echo_repr echo_lib CodeInterpreterNb bare_world)) /\
  ~ one_call_then_print echo_str
      (trace_of echo_str echo_repr echo_lib CodeInterpreterNb bare_world).
Proof.
  split; [vm_compute; tauto|].
  intros [_ H]. vm_compute in H. tauto.
Qed.


(** A handler would change what C2 says: the arXiv notebook wrapped in
    [try: ... except Exception as e: print(e)] goes on after the client
    refused to be built, prints the error and ends as if nothing had
    happened. *)
Lemma a_handler_would_swallow :
  let p := guarded (program echo_str echo_repr ArxivNb) in
  ~ handler_free p /\
  (run strict_lib p bare_world).1.2 !! 3%nat =
    Some (EvOpenAI "gpt-4o-mini" None (inl no_key)) /\
  (run strict_lib p bare_world).1.2 !! 4%nat = Some (EvPrint no_key) /\
  (run strict_lib p bare_world).2 = Done tt.
Proof.
  split; [intros H; inversion H|]. repeat split; vm_compute; reflexivity.
Qed.

Lemma one_agent_threaded_witness :
  let w := kept_world "sk-env" "sk-file" in
  let t := trace_of echo_str echo_repr keeping_lib CodeInterpreterNb w in
  outcome_of echo_str echo_repr keeping_lib CodeInterpreterNb w = Done tt /\
  constructions t = 1%nat /\ utterances t = spoken CodeInterpreterNb.
Proof.
  split; [vm_compute; reflexivity|].
  apply (proj2 (proj2 (proj2
           (one_agent_threaded echo_str echo_repr keeping_lib CodeInterpreterNb
              (kept_world "sk-env" "sk-file"))))).
  vm_compute. reflexivity.
Defined.

(** *** More runs *)

Lemma key_in_environ_at_library_calls_witness :
  let w := dotenv_world "sk-file" in
  key_available w /\
  Forall2 (fun w' ev => is_library_call ev -> is_Some (environ w' !! OPENAI_API_KEY))
          (worlds_of echo_str echo_repr echo_lib DuckDuckGoNb w)
          (trace_of echo_str echo_repr echo_lib DuckDuckGoNb w).
Proof.
  assert (Hkey : key_available (dotenv_world "sk-file")).
  { right. exists "sk-file". vm_compute. reflexivity. }
  split; [exact Hkey|].
  apply key_in_environ_at_library_calls. exact Hkey.
Defined.

Lemma environ_only_gains_witness :
  let w := keyed_world "sk-env" "sk-file" in
  environ (final echo_str echo_repr echo_lib ArxivNb w) !! "HOME" = environ w !! "HOME" /\
  is_Some (environ (final echo_str echo_repr echo_lib DuckDuckGoNb w) !! OPENAI_API_KEY).
Proof.
  split.
  - apply (proj1 (environ_only_gains echo_str echo_repr echo_lib ArxivNb
                    (keyed_world "sk-env" "sk-file") "HOME")).
    vm_compute. reflexivity.
  - apply (proj1 (proj2 (environ_only_gains echo_str echo_repr echo_lib DuckDuckGoNb
                           (keyed_world "sk-env" "sk-file") OPENAI_API_KEY))).
    exists "sk-env". vm_compute. reflexivity.
Defined.

End NotebookFacts.
